(** * Leaflet amenity map: a model of [src/App.js]

    The repository is one React component, [App], gluing a Formik form, a
    Leaflet map and a [fetch] to the Overpass API.  The component is modelled
    as a state machine: one transition per browser event (a field edit, a
    form submission, a change of the amenity selector, the settlement of an
    in-flight request), each transition running the handler of [App.js] and
    then the render cycle of React (clean-ups, then effects, in the order in
    which the component declares them).

    What the libraries do is taken from their documented contracts:
    - React 18: state setters called from one handler are batched into one
      render; a setter called with a value that is [Object.is]-equal to the
      current one schedules nothing; after a render, an effect runs when one
      of its dependencies changed ([Object.is]), clean-ups first.
    - Formik: [onSubmit] is called with the current values object only when
      the schema reports no error; an empty field reaches the schema as
      [undefined]; a numeric input holds a parsed number or the empty string.
    - Leaflet: [L.map] refuses a container that already holds a map;
      [map.remove()] releases the container; layers are stamped with fresh
      ids.

    Left out of the model: what Leaflet itself does with a centre far out
    of the range of coordinates ([L.map] takes any centre here); what the
    user does to the map (zooming, dragging, opening a popup); response
    bodies that are not shaped as the Overpass API shapes them ([elements],
    when present, is a list of nodes with [lat], [lon] and, optionally,
    [tags]); and the keys [amenityIcons] inherits from [Object.prototype]
    (the component looks up the empty string and the four option values
    only). *)

From stdpp Require Import base strings list gmap.

Open Scope string_scope.
Open Scope list_scope.

(** ** JavaScript values *)

(** A JS number is carried by its canonical rendering (ECMAScript
    [Number::toString]).  The component performs no arithmetic: numbers are
    only interpolated into template strings and handed to Leaflet. *)
Record number := Num { toString : string }.

#[global] Instance number_eq_dec : EqDecision number.
Proof. solve_decision. Defined.

(** The value of a Formik [<Field type="number">]: the parsed number, or the
    empty string while the input holds nothing that parses. *)
Inductive NumberInput :=
  | EmptyInput
  | NumberValue (n : number).

#[global] Instance NumberInput_eq_dec : EqDecision NumberInput.
Proof. solve_decision. Defined.

(** Template interpolation [`${v}`] of such a value. *)
Definition interpolate (v : NumberInput) : string :=
  match v with
  | EmptyInput => ""
  | NumberValue n => toString n
  end.

(** Unary plus, as Leaflet's [LatLng] applies it to its arguments. *)
Definition ToNumber (v : NumberInput) : number :=
  match v with
  | EmptyInput => Num "0"
  | NumberValue n => n
  end.

(** Exceptions: a computation either returns or throws. *)
Inductive result (A : Type) :=
  | Ok (a : A)
  | Throw (error : string).
Arguments Ok {A} a.
Arguments Throw {A} error.

#[global] Instance result_ret : MRet result := fun _ a => Ok a.
#[global] Instance result_bind : MBind result := fun _ _ f r =>
  match r with
  | Ok a => f a
  | Throw e => Throw e
  end.

Definition returns {A} (r : result A) : Prop := exists a, r = Ok a.

(** ** The form: values, schema, options *)

Record Values := {
  name : string;
  latitude : NumberInput;
  longitude : NumberInput;
  type : string;
}.

#[global] Instance Values_eq_dec : EqDecision Values.
Proof. solve_decision. Defined.

Definition initialValues : Values :=
  {| name := ""; latitude := EmptyInput; longitude := EmptyInput; type := "" |}.

Record Errors := {
  name_error : option string;
  latitude_error : option string;
  longitude_error : option string;
  type_error : option string;
}.

#[global] Instance Errors_eq_dec : EqDecision Errors.
Proof. solve_decision. Defined.

Definition no_errors : Errors :=
  {| name_error := None; latitude_error := None;
     longitude_error := None; type_error := None |}.

Module Yup.
(** [Yup.string().required(msg)]: the value must be present and of
    non-zero length. *)
Definition string_required (msg : string) (v : string) : option string :=
  if decide (v = "") then Some msg else None.

(** [Yup.number().required(msg)]: the value must be present; what Formik
    stores in a numeric field is a number or nothing. *)
Definition number_required (msg : string) (v : NumberInput) : option string :=
  match v with
  | EmptyInput => Some msg
  | NumberValue _ => None
  end.
End Yup.

Definition validationSchema (v : Values) : Errors :=
  {| name_error := Yup.string_required "Name is required" (name v);
     latitude_error := Yup.number_required "Latitude is required" (latitude v);
     longitude_error := Yup.number_required "Longitude is required" (longitude v);
     type_error := Yup.string_required "Type is required" (type v) |}.

Definition accepts (v : Values) : bool :=
  bool_decide (validationSchema v = no_errors).

Definition hospitalIcon : string := "./assets/hospital.svg".
Definition schoolIcon : string := "./assets/school.svg".
Definition restaurantIcon : string := "./assets/restaurant.svg".
Definition templeIcon : string := "./assets/temple.svg".

Definition amenityIcons : gmap string string :=
  <["hospital" := hospitalIcon]>
  (<["school" := schoolIcon]>
  (<["restaurant" := restaurantIcon]>
  (<["place_of_worship" := templeIcon]> ∅))).

Record TypeOption := {
  id : nat;
  label : string;
  value : string;
}.

Definition typeOptions : list TypeOption :=
  [ {| id := 1; label := "Restaurant"; value := "restaurant" |};
    {| id := 2; label := "Hospital"; value := "hospital" |};
    {| id := 3; label := "School"; value := "school" |};
    {| id := 4; label := "Temple"; value := "place_of_worship" |} ].


(** ** Leaflet

    The part of Leaflet the component calls.  Map widgets and layers are
    objects with identity: each is known by the id Leaflet stamps on it, and
    the world holds the widgets that are live (created and not yet removed),
    together with the history of creations and removals. *)
Module L.
Record Icon := {
  iconUrl : option string;
  iconSize : Z * Z;
  iconAnchor : Z * Z;
  popupAnchor : Z * Z;
}.

Record Marker := {
  latlng : number * number;
  icon : Icon;
  popup : option string;
}.

Inductive Layer :=
  | TileLayer (urlTemplate attribution : string)
  | MarkerLayer (m : Marker).

(** [layer instanceof L.Marker] *)
Definition instanceof_Marker (l : Layer) : bool :=
  match l with
  | MarkerLayer _ => true
  | TileLayer _ _ => false
  end.

Record Map := {
  container : string;
  center : number * number;
  zoom : Z;
  layers : list (nat * Layer);
}.

Inductive Lifecycle :=
  | Created (map_id : nat)
  | Removed (map_id : nat).

Record World := {
  lastId : nat;
  maps : list (nat * Map);
  history : list Lifecycle;
}.

Definition empty : World := {| lastId := 0; maps := []; history := [] |}.

Definition find (map_id : nat) (w : World) : option Map :=
  snd <$> head (filter (fun p => fst p = map_id) (maps w)).

Definition set_layers (ls : list (nat * Layer)) (m : Map) : Map :=
  {| container := container m; center := center m; zoom := zoom m; layers := ls |}.

(** Replaces the widget [map_id] by [m] and moves the stamp counter. *)
Definition store (map_id : nat) (m : Map) (last : nat) (w : World) : World :=
  {| lastId := last;
     maps := (fun p => if decide (fst p = map_id) then (map_id, m) else p) <$> maps w;
     history := history w |}.

(** Stamps each layer of [ls] with the ids following [last]. *)
Fixpoint stamp_all (last : nat) (ls : list Layer) : list (nat * Layer) :=
  match ls with
  | [] => []
  | l :: ls' => (S last, l) :: stamp_all (S last) ls'
  end.

(** [L.map(container, {center, zoom, layers})] *)
Definition map (el : string) (c : number * number) (z : Z)
    (ls : list Layer) (w : World) : result (nat * World) :=
  if bool_decide (Exists (fun p => container (snd p) = el) (maps w))
  then Throw "Map container is already initialized."
  else
    let map_id := S (lastId w) in
    let m := {| container := el; center := c; zoom := z;
                layers := stamp_all map_id ls |} in
    Ok (map_id,
        {| lastId := length ls + map_id;
           maps := maps w ++ [(map_id, m)];
           history := history w ++ [Created map_id] |}).

(** [map.remove()] *)
Definition remove (map_id : nat) (w : World) : result World :=
  match find map_id w with
  | None => Throw "Map container is being reused by another instance"
  | Some _ =>
      Ok {| lastId := lastId w;
            maps := filter (fun p => fst p ≠ map_id) (maps w);
            history := history w ++ [Removed map_id] |}
  end.

(** [map.removeLayer(layer)], the layer being the one stamped [layer_id]. *)
Definition removeLayer (map_id layer_id : nat) (w : World) : result World :=
  match find map_id w with
  | None => Throw "removeLayer on a removed map"
  | Some m =>
      Ok (store map_id
            (set_layers (filter (fun p => fst p ≠ layer_id) (layers m)) m)
            (lastId w) w)
  end.

(** [map.eachLayer(fn)]: [fn] is called on every layer the map holds when
    the iteration starts; it may remove layers from the map meanwhile. *)
Definition eachLayer (map_id : nat)
    (fn : nat -> Layer -> World -> result World) (w : World) : result World :=
  match find map_id w with
  | None => Throw "eachLayer on a removed map"
  | Some m =>
      foldl (fun r p => r ≫= fn (fst p) (snd p)) (Ok w) (layers m)
  end.

(** [L.marker(latlng, {icon})] *)
Definition marker (ll : number * number) (i : Icon) : Marker :=
  {| latlng := ll; icon := i; popup := None |}.

(** [marker.addTo(map)]; returns the stamp of the marker. *)
Definition addTo (mk : Marker) (map_id : nat) (w : World) : result (nat * World) :=
  match find map_id w with
  | None => Throw "addTo on a removed map"
  | Some m =>
      let layer_id := S (lastId w) in
      Ok (layer_id,
          store map_id
            (set_layers (layers m ++ [(layer_id, MarkerLayer mk)]) m)
            layer_id w)
  end.

Definition bind (content : string) (p : nat * Layer) (layer_id : nat) : nat * Layer :=
  match snd p with
  | MarkerLayer mk =>
      if decide (fst p = layer_id)
      then (fst p, MarkerLayer {| latlng := latlng mk; icon := icon mk;
                                  popup := Some content |})
      else p
  | TileLayer _ _ => p
  end.

(** [marker.bindPopup(content)] for the marker stamped [layer_id], which
    sits on the map [map_id]. *)
Definition bindPopup (map_id layer_id : nat) (content : string)
    (w : World) : result World :=
  match find map_id w with
  | None => Throw "bindPopup on a removed map"
  | Some m =>
      Ok (store map_id
            (set_layers ((fun p => bind content p layer_id) <$> layers m) m)
            (lastId w) w)
  end.

(** The markers a map shows, in the order in which they were added. *)
Definition markers (m : Map) : list Marker :=
  omap (fun p => match snd p with
                 | MarkerLayer mk => Some mk
                 | TileLayer _ _ => None
                 end) (layers m).

(** The widgets live after a history of creations and removals. *)
Definition live (h : list Lifecycle) : list nat :=
  foldl (fun acc e => match e with
                      | Created i => acc ++ [i]
                      | Removed i => filter (fun j => j ≠ i) acc
                      end) [] h.
End L.

(** ** What the Overpass API returns *)

Record PointOfInterest := {
  lat : number;
  lon : number;
  tags : option (gmap string string);
}.

(** The parsed body of a response: [null], or an object which may have an
    [elements] member. *)
Inductive ResponseJson :=
  | json_null
  | json_object (elements : option (list PointOfInterest)).

(** How an in-flight request ends: [fetch] rejects, [response.json()]
    rejects, or the body parses. *)
Inductive Settlement :=
  | fetch_rejects (error : string)
  | json_rejects (error : string)
  | json_resolves (body : ResponseJson).

(** The values [queryResult] takes: [undefined], or an array, which is an
    object with identity. *)
Inductive QueryResult :=
  | undefined
  | array (ref : nat) (elems : list PointOfInterest).

Definition elements_of (q : QueryResult) : list PointOfInterest :=
  match q with
  | undefined => []
  | array _ l => l
  end.

(** [Object.is] on the values of [queryResult] and of [inputFromForm]. *)
Definition Object_is (a b : QueryResult) : bool :=
  match a, b with
  | undefined, undefined => true
  | array r _, array r' _ => bool_decide (r = r')
  | _, _ => false
  end.

Definition same_object (a b : option (nat * Values)) : bool :=
  match a, b with
  | None, None => true
  | Some (r, _), Some (r', _) => bool_decide (r = r')
  | _, _ => false
  end.

(** ** The component *)

(** A GET request in flight, with the [queryBy] its call of
    [fetchQueryDetail] was given. *)
Record Request := {
  url : string;
  amenity : string;
}.

(** What Formik holds: the values object, the messages of the last
    validation, whether the fields were touched by a submission. *)
Record Formik := {
  values : nat * Values;
  errors : Errors;
  touched : bool;
}.

(** The hooks of [App] ([queryBy], [queryResult], [inputFromForm],
    [mapRef]), the form, and the environment the component acts on: the
    Leaflet world, the requests in flight, the continuations queued as
    microtasks, the requests sent so far, the console, the calls of
    [fetchQueryDetail] that have returned with what they returned, and the
    allocator of object identities. *)
Record App := {
  queryBy : string;
  queryResult : QueryResult;
  inputFromForm : option (nat * Values);
  mapRef : option nat;
  formik : Formik;
  leaflet : L.World;
  in_flight : list Request;
  microtasks : list (string * QueryResult);
  requests : list string;
  console : list string;
  returned : list (string * QueryResult);
  next_ref : nat;
}.

Definition set_hooks (q : string) (i : option (nat * Values)) (s : App) : App :=
  {| queryBy := q; queryResult := queryResult s; inputFromForm := i;
     mapRef := mapRef s; formik := formik s; leaflet := leaflet s;
     in_flight := in_flight s; microtasks := microtasks s;
     requests := requests s; console := console s; returned := returned s;
     next_ref := next_ref s |}.

Definition set_queryResult (d : QueryResult) (s : App) : App :=
  {| queryBy := queryBy s; queryResult := d; inputFromForm := inputFromForm s;
     mapRef := mapRef s; formik := formik s; leaflet := leaflet s;
     in_flight := in_flight s; microtasks := microtasks s;
     requests := requests s; console := console s; returned := returned s;
     next_ref := next_ref s |}.

Definition set_map (r : option nat) (w : L.World) (s : App) : App :=
  {| queryBy := queryBy s; queryResult := queryResult s;
     inputFromForm := inputFromForm s;
     mapRef := r; formik := formik s; leaflet := w;
     in_flight := in_flight s; microtasks := microtasks s;
     requests := requests s; console := console s; returned := returned s;
     next_ref := next_ref s |}.

Definition set_formik (f : Formik) (n : nat) (s : App) : App :=
  {| queryBy := queryBy s; queryResult := queryResult s;
     inputFromForm := inputFromForm s;
     mapRef := mapRef s; formik := f; leaflet := leaflet s;
     in_flight := in_flight s; microtasks := microtasks s;
     requests := requests s; console := console s; returned := returned s;
     next_ref := n |}.

(** The environment after network activity: requests in flight, queued
    continuations, requests sent. *)
Definition set_network (fl : list Request) (mt : list (string * QueryResult))
    (rq : list string) (s : App) : App :=
  {| queryBy := queryBy s; queryResult := queryResult s;
     inputFromForm := inputFromForm s;
     mapRef := mapRef s; formik := formik s; leaflet := leaflet s;
     in_flight := fl; microtasks := mt;
     requests := rq; console := console s; returned := returned s;
     next_ref := next_ref s |}.

(** The environment after a call of [fetchQueryDetail] has returned. *)
Definition set_returned (c : list string) (rt : list (string * QueryResult))
    (n : nat) (s : App) : App :=
  {| queryBy := queryBy s; queryResult := queryResult s;
     inputFromForm := inputFromForm s;
     mapRef := mapRef s; formik := formik s; leaflet := leaflet s;
     in_flight := in_flight s; microtasks := microtasks s;
     requests := requests s; console := c; returned := rt;
     next_ref := n |}.

Definition dquote : string := String (Ascii.ascii_of_nat 34) "".

(** [createMap] *)
Definition createMap (s : App) : result (nat * L.World) :=
  L.map "map"
    match inputFromForm s with
    | Some (_, v) => (ToNumber (latitude v), ToNumber (longitude v))
    | None => (Num "28.7041", Num "77.1025")
    end
    13
    [ L.TileLayer "https://{s}.tile.openstreetmap.org/{z}/{x}/{y}.png"
        ("&copy; <a href=" +:+ dquote +:+ "http://osm.org/copyright" +:+ dquote
         +:+ ">OpenStreetMap</a> contributors") ]
    (leaflet s).

(** The address [fetchQueryDetail] requests. *)
Definition overpass_url (v : Values) (queryBy : string) : string :=
  "https://overpass-api.de/api/interpreter?data=[out:json];node(around:5000,"
  +:+ interpolate (latitude v) +:+ "," +:+ interpolate (longitude v)
  +:+ ")[amenity=" +:+ queryBy +:+ "];out;".

(** [fetchQueryDetail], up to its first [await]: with no submitted values the
    function returns [undefined] at once, and the continuation of its caller
    is queued; otherwise it sends one GET request and suspends. *)
Definition fetchQueryDetail (queryBy : string) (s : App) : App :=
  match inputFromForm s with
  | Some (_, v) =>
      let u := overpass_url v queryBy in
      set_network (in_flight s ++ [{| url := u; amenity := queryBy |}])
        (microtasks s) (requests s ++ [u]) s
  | None =>
      set_network (in_flight s) (microtasks s ++ [(queryBy, undefined)])
        (requests s) s
  end.

(** [fetchQueryDetail], from the settlement of its request to its return:
    the value returned, the lines logged with [console.error]. *)
Definition fetchQueryDetail_settled (queryBy : string) (o : Settlement)
    (fresh : nat) : QueryResult * list string :=
  match o with
  | json_resolves json_null => (undefined, [])
  | json_resolves (json_object None) => (undefined, [])
  | json_resolves (json_object (Some l)) => (array fresh l, [])
  | fetch_rejects e | json_rejects e =>
      (array fresh [], ["Error fetching " +:+ queryBy +:+ " data: " +:+ e])
  end.

(** The clean-up of the first effect. *)
Definition map_cleanup (s : App) : result App :=
  match mapRef s with
  | None => Throw "TypeError: mapRef.current is null"
  | Some map_id =>
      w ← L.remove map_id (leaflet s);
      Ok (set_map (mapRef s) w s)
  end.

(** The first effect: the map is created, the fetch is started. *)
Definition map_effect (s : App) : result App :=
  '(map_id, w) ← createMap s;
  Ok (fetchQueryDetail (queryBy s) (set_map (Some map_id) w s)).

Definition selectedIcon (queryBy : string) : L.Icon :=
  {| L.iconUrl := amenityIcons !! queryBy;
     L.iconSize := (32, 32)%Z;
     L.iconAnchor := (16, 32)%Z;
     L.popupAnchor := (0, -32)%Z |}.

(** [`${x}`] for a string that may be [undefined]. *)
Definition template (x : option string) : string :=
  default "undefined" x.

(** [obj?.tags?.name] *)
Definition tags_name (obj : PointOfInterest) : option string :=
  tags obj ≫= fun t => t !! "name".

Definition popupContent (obj : PointOfInterest) : string :=
  "<div><b>Name: " +:+ template (tags_name obj)
  +:+ "</b> <br/> <b>latitude: " +:+ toString (lat obj)
  +:+ "</b> <br/> <b>longitude: " +:+ toString (lon obj) +:+ "</b></div>".

(** The first loop of the second effect: every marker layer is removed. *)
Definition clear_markers (map_id : nat) (w : L.World) : result L.World :=
  L.eachLayer map_id
    (fun layer_id layer w' =>
       if L.instanceof_Marker layer then L.removeLayer map_id layer_id w'
       else Ok w')
    w.

(** The body of the second loop. *)
Definition add_marker (i : L.Icon) (map_id : nat) (obj : PointOfInterest)
    (w : L.World) : result L.World :=
  '(layer_id, w1) ← L.addTo (L.marker (lat obj, lon obj) i) map_id w;
  L.bindPopup map_id layer_id (popupContent obj) w1.

(** [queryResult?.forEach(fn)] *)
Definition forEach (q : QueryResult)
    (fn : PointOfInterest -> L.World -> result L.World)
    (w : L.World) : result L.World :=
  match q with
  | undefined => Ok w
  | array _ l => foldl (fun r obj => r ≫= fn obj) (Ok w) l
  end.

(** The second effect. *)
Definition marker_effect (s : App) : result App :=
  match mapRef s with
  | None => Throw "TypeError: mapRef.current is null"
  | Some map_id =>
      w1 ← clear_markers map_id (leaflet s);
      w2 ← forEach (queryResult s) (add_marker (selectedIcon (queryBy s)) map_id) w1;
      Ok (set_map (mapRef s) w2 s)
  end.

(** ** React: the render cycle *)

(** Has a dependency of the first effect, [[queryBy, inputFromForm]],
    changed between two renders? *)
Definition map_deps_changed (prev s : App) : bool :=
  negb (bool_decide (queryBy prev = queryBy s))
  || negb (same_object (inputFromForm prev) (inputFromForm s)).

(** Has a dependency of the second effect, [[queryResult, queryBy]],
    changed? *)
Definition marker_deps_changed (prev s : App) : bool :=
  negb (Object_is (queryResult prev) (queryResult s))
  || negb (bool_decide (queryBy prev = queryBy s)).

(** The render cycle that takes the hooks from [prev] to [s]: the clean-ups
    of the effects that are about to run again, then those effects, in the
    order of their declaration.  With no dependency changed nothing runs. *)
Definition commit (prev s : App) : result App :=
  s1 ← (if map_deps_changed prev s then map_cleanup s else Ok s);
  s2 ← (if map_deps_changed prev s then map_effect s1 else Ok s1);
  if marker_deps_changed prev s then marker_effect s2 else Ok s2.

(** The continuation of the caller of [fetchQueryDetail]:
    [setQueryResult(data)], and the render cycle it causes. *)
Definition resume (queryBy : string) (d : QueryResult) (logged : list string)
    (s : App) : result App :=
  let s' := set_returned (console s ++ logged) (returned s ++ [(queryBy, d)])
              (S (next_ref s)) s in
  commit s' (set_queryResult d s').

(** The continuations queued during a render cycle run before the next
    event. *)
Definition run_microtasks (s : App) : result App :=
  foldl (fun r t => r ≫= resume (fst t) (snd t) [])
    (Ok (set_network (in_flight s) [] (requests s) s))
    (microtasks s).

(** ** Events *)

Inductive Event :=
  | ChangeName (text : string)
  | ChangeLatitude (v : NumberInput)
  | ChangeLongitude (v : NumberInput)
  | ChangeType (index : nat)
  | Submit
  | SelectAmenity (index : nat)
  | Settle (index : nat) (o : Settlement).

(** Formik on a field edit: a new values object, validated.  An edit event
    stands for an edit that changes the value of its field (Formik keeps
    the values object when the value stays as it was). *)
Definition handleChange (v : Values) (s : App) : App :=
  set_formik {| values := (next_ref s, v); errors := validationSchema v;
                touched := touched (formik s) |}
    (S (next_ref s)) s.

(** The [onSubmit] of the form.  [setSubmitting] only drives the submit
    button and is left out. *)
Definition onSubmit (vals : nat * Values) (s : App) : result App :=
  commit s (set_hooks (type (snd vals)) (Some vals) s) ≫= run_microtasks.

(** Formik on a submission: every field becomes touched, the schema is run,
    and [onSubmit] is called only when it reports nothing. *)
Definition handleSubmit (s : App) : result App :=
  let vals := values (formik s) in
  let s' := set_formik {| values := vals; errors := validationSchema (snd vals);
                          touched := true |} (next_ref s) s in
  if accepts (snd vals) then onSubmit vals s' else Ok s'.

(** The [onChange] of the amenity selector. *)
Definition onChange (selectedValue : string) (s : App) : result App :=
  commit s (set_hooks selectedValue (inputFromForm s) s) ≫= run_microtasks.

(** The request at [index] settles, and [fetchQueryDetail] returns. *)
Definition settle (index : nat) (o : Settlement) (s : App) : result App :=
  match in_flight s !! index with
  | None => Ok s
  | Some req =>
      let '(d, logged) := fetchQueryDetail_settled (amenity req) o (next_ref s) in
      resume (amenity req) d logged
        (set_network (delete index (in_flight s)) (microtasks s) (requests s) s)
      ≫= run_microtasks
  end.

Definition step (e : Event) (s : App) : result App :=
  let v := snd (values (formik s)) in
  match e with
  | ChangeName text =>
      Ok (handleChange {| name := text; latitude := latitude v;
                          longitude := longitude v; type := type v |} s)
  | ChangeLatitude x =>
      Ok (handleChange {| name := name v; latitude := x;
                          longitude := longitude v; type := type v |} s)
  | ChangeLongitude x =>
      Ok (handleChange {| name := name v; latitude := latitude v;
                          longitude := x; type := type v |} s)
  | ChangeType index =>
      match typeOptions !! index with
      | Some o =>
          Ok (handleChange {| name := name v; latitude := latitude v;
                              longitude := longitude v; type := value o |} s)
      | None => Ok s
      end
  | Submit => handleSubmit s
  | SelectAmenity index =>
      match typeOptions !! index with
      | Some o => onChange (value o) s
      | None => Ok s
      end
  | Settle index o => settle index o s
  end.

(** The component before its first render. *)
Definition initial : App :=
  {| queryBy := ""; queryResult := array 0 []; inputFromForm := None;
     mapRef := None;
     formik := {| values := (1, initialValues); errors := no_errors;
                  touched := false |};
     leaflet := L.empty; in_flight := []; microtasks := [];
     requests := []; console := []; returned := []; next_ref := 2 |}.

(** Mounting: the first render, after which every effect runs. *)
Definition mount : result App :=
  s1 ← map_effect initial;
  s2 ← marker_effect s1;
  run_microtasks s2.

(** The component after a sequence of events. *)
Definition run (es : list Event) : result App :=
  foldl (fun r e => r ≫= step e) mount es.

(** The widget [mapRef.current] refers to. *)
Definition current_map (s : App) : option L.Map :=
  mapRef s ≫= fun map_id => L.find map_id (leaflet s).

(** The markers the second effect draws for a result list. *)
Definition marker_of (queryBy : string) (obj : PointOfInterest) : L.Marker :=
  {| L.latlng := (lat obj, lon obj);
     L.icon := selectedIcon queryBy;
     L.popup := Some (popupContent obj) |}.

Definition rendering (queryBy : string) (q : QueryResult) : list L.Marker :=
  marker_of queryBy <$> elements_of q.

(** ** Vocabulary of the statements *)

(** [sub] occurs in [s]. *)
Definition contains (sub s : string) : Prop :=
  exists before after, s = before +:+ sub +:+ after.

(** A world whose only live widget is [m], known as [map_id]. *)
Definition one (last map_id : nat) (m : L.Map) (h : list L.Lifecycle) : L.World :=
  {| L.lastId := last; L.maps := [(map_id, m)]; L.history := h |}.

(** A world with no live widget. *)
Definition none (last : nat) (h : list L.Lifecycle) : L.World :=
  {| L.lastId := last; L.maps := []; L.history := h |}.

(** Stamps are distinct and were all handed out already. *)
Definition wf_layers (last : nat) (ls : list (nat * L.Layer)) : Prop :=
  NoDup ls.*1 /\ Forall (fun p => p.1 <= last) ls.

(** At no point of a history were two widgets live. *)
Definition never_two (h : list L.Lifecycle) : Prop :=
  forall h', h' `prefix_of` h -> length (L.live h') <= 1.

Definition reachable (s : App) : Prop := exists es, run es = Ok s.

Definition tile : L.Layer :=
  L.TileLayer "https://{s}.tile.openstreetmap.org/{z}/{x}/{y}.png"
    ("&copy; <a href=" +:+ dquote +:+ "http://osm.org/copyright" +:+ dquote
     +:+ ">OpenStreetMap</a> contributors").

(** The centre [createMap] chooses. *)
Definition center_for (i : option (nat * Values)) : number * number :=
  match i with
  | Some (_, v) => (ToNumber (latitude v), ToNumber (longitude v))
  | None => (Num "28.7041", Num "77.1025")
  end.

(** The widget [createMap] makes when the last stamp was [last]. *)
Definition fresh_map (i : option (nat * Values)) (last : nat) : L.Map :=
  {| L.container := "map"; L.center := center_for i; L.zoom := 13;
     L.layers := [(S (S last), tile)] |}.

(** The layers of a map once the second effect has run on it. *)
Definition redrawn (last : nat) (ms : list L.Marker) (m : L.Map) : L.Map :=
  L.set_layers
    (filter (fun p => L.instanceof_Marker p.2 = false) (L.layers m)
     ++ L.stamp_all last (L.MarkerLayer <$> ms)) m.

(** The values the two selectors offer. *)
Definition option_values : list string := value <$> typeOptions.

(** The Leaflet world fits the hooks: one live widget, the one [mapRef]
    refers to, centred for [i], showing either nothing or the markers of
    [d] drawn for [q]; and never more than one widget was live. *)
Definition world_ok (q : string) (d : QueryResult) (i : option (nat * Values))
    (w : L.World) (r : option nat) : Prop :=
  exists last map_id m h,
    w = one last map_id m h /\ r = Some map_id /\ map_id <= last
    /\ wf_layers last (L.layers m)
    /\ L.center m = center_for i
    /\ (L.markers m = [] \/ L.markers m = rendering q d)
    /\ L.live h = [map_id] /\ never_two h.

(** The array in [queryResult] was allocated before [next_ref]. *)
Definition fresh_result (s : App) : Prop :=
  match queryResult s with
  | array r _ => r < next_ref s
  | undefined => True
  end.

(** Object identities determine contents. *)
Definition heap_ok (s : App) : Prop :=
  (values (formik s)).1 < next_ref s
  /\ forall r v, inputFromForm s = Some (r, v) ->
       r < next_ref s /\ (r = (values (formik s)).1 -> v = (values (formik s)).2).

Record rest_ok (s : App) : Prop := {
  ok_fresh : fresh_result s;
  ok_heap : heap_ok s;
  ok_submitted : forall r v, inputFromForm s = Some (r, v) ->
                 accepts v = true /\ queryBy s ∈ option_values;
  ok_type : type (values (formik s)).2 ∈ "" :: option_values;
  ok_queryBy : queryBy s ∈ "" :: option_values;
  ok_returned : exists q, last (returned s) = Some (q, queryResult s);
}.

(** The invariant of the component between two events. *)
Definition Inv (s : App) : Prop :=
  world_ok (queryBy s) (queryResult s) (inputFromForm s) (leaflet s) (mapRef s)
  /\ rest_ok s /\ microtasks s = [].

(** Two states that differ at most in the Leaflet world and the network. *)
Definition same_component (s s' : App) : Prop :=
  queryBy s' = queryBy s /\ queryResult s' = queryResult s
  /\ inputFromForm s' = inputFromForm s /\ formik s' = formik s
  /\ console s' = console s /\ returned s' = returned s
  /\ next_ref s' = next_ref s.

(** The requests a render cycle sends. *)
Definition sent (prev s : App) : list string :=
  if map_deps_changed prev s then
    match inputFromForm s with
    | Some (_, v) => [overpass_url v (queryBy s)]
    | None => []
    end
  else [].

(** The continuations a render cycle queues. *)
Definition queued (prev s : App) : list (string * QueryResult) :=
  if map_deps_changed prev s then
    match inputFromForm s with
    | Some _ => []
    | None => [(queryBy s, undefined)]
    end
  else [].

(** What a render cycle does to the widget: replaced when [changed], left
    in place otherwise. *)
Definition map_step (changed : bool) (s s' : App) : Prop :=
  if changed then
    exists old new,
      mapRef s = Some old /\ mapRef s' = Some new /\ old ≠ new
      /\ L.history (leaflet s')
         = L.history (leaflet s) ++ [L.Removed old; L.Created new]
  else
    mapRef s' = mapRef s /\ L.history (leaflet s') = L.history (leaflet s).

(** The component once mounted: the map at the default centre, no request
    sent, [queryResult] already [undefined]. *)
Definition mounted : App :=
  {| queryBy := ""; queryResult := undefined; inputFromForm := None;
     mapRef := Some 1;
     formik := {| values := (1, initialValues); errors := no_errors;
                  touched := false |};
     leaflet := one 2 1 (fresh_map None 0) [L.Created 1];
     in_flight := []; microtasks := [];
     requests := []; console := []; returned := [("", undefined)];
     next_ref := 3 |}.

(** The text a popup is to show for an element named [nm] at the
    coordinates [la] and [lo], written out. *)
Definition popup_text (nm : string) (la lo : number) : string :=
  "<div><b>Name: " +:+ nm +:+ "</b> <br/> <b>latitude: " +:+ toString la
  +:+ "</b> <br/> <b>longitude: " +:+ toString lo +:+ "</b></div>".

(** The markers [ms] are those of the list [l] drawn for the type [q]: one
    per element, in order, at the element's coordinates, with the icon of
    [q], and a popup in which the element's latitude and longitude occur
    and, when the element has tags with a name, that name: the popup then
    reads "Name: ", the name, "latitude: ", the latitude, "longitude: ",
    the longitude (with the text "undefined" for the name of an element
    that has none). *)
Definition drawn_for (q : string) (l : list PointOfInterest)
    (ms : list L.Marker) : Prop :=
  length ms = length l
  /\ forall k obj, l !! k = Some obj ->
       exists mk content,
         ms !! k = Some mk
         /\ L.latlng mk = (lat obj, lon obj)
         /\ L.icon mk = selectedIcon q
         /\ L.iconUrl (L.icon mk) = amenityIcons !! q
         /\ L.popup mk = Some content
         /\ (forall t nm, tags obj = Some t -> t !! "name" = Some nm ->
             contains nm content
             /\ content = popup_text nm (lat obj) (lon obj))
         /\ (tags obj = None \/ (exists t, tags obj = Some t /\ t !! "name" = None) ->
             content = popup_text "undefined" (lat obj) (lon obj))
         /\ contains (toString (lat obj)) content
         /\ contains (toString (lon obj)) content.



(** The schema accepts exactly the values whose type is one of the four
    offered. *)
Definition accepts_listed_types_only (v : Values) : Prop :=
  accepts v = true
  <-> name v ≠ "" /\ (exists n, latitude v = NumberValue n)
      /\ (exists n, longitude v = NumberValue n) /\ type v ∈ option_values.

(** *** Scenarios *)

Definition hospital_values : Values :=
  {| name := "X"; latitude := NumberValue (Num "28.7");
     longitude := NumberValue (Num "77.1"); type := "hospital" |}.

(** The user fills the form with [hospital_values]. *)
Definition fill_form : list Event :=
  [ ChangeName "X"; ChangeLatitude (NumberValue (Num "28.7"));
    ChangeLongitude (NumberValue (Num "77.1")); ChangeType 1 ].

Definition state_after (es : list Event) : App :=
  match run es with
  | Ok s => s
  | Throw _ => initial
  end.

(** The form is filled, not yet submitted. *)
Definition filled : App := Eval vm_compute in state_after fill_form.

(** The form was submitted; the request for hospitals is in flight. *)
Definition submitted : App := Eval vm_compute in state_after (fill_form ++ [Submit]).

Definition clinic : PointOfInterest :=
  {| lat := Num "28.6"; lon := Num "77.2";
     tags := Some (<["name" := "City Clinic"]> ∅) |}.


Definition unnamed : PointOfInterest :=
  {| lat := Num "28.4"; lon := Num "77.4"; tags := None |}.



(** *** Vocabulary of the further properties *)

(** An event that only touched the form. *)
Definition form_only (s s' : App) : Prop :=
  queryBy s' = queryBy s /\ queryResult s' = queryResult s
  /\ inputFromForm s' = inputFromForm s
  /\ mapRef s' = mapRef s /\ leaflet s' = leaflet s
  /\ in_flight s' = in_flight s /\ requests s' = requests s
  /\ console s' = console s /\ returned s' = returned s.

(** An event that set [queryBy] and [inputFromForm] and went through one
    render cycle. *)
Definition rerendered (s s' : App) : Prop :=
  console s' = console s
  /\ requests s' = requests s ++ sent s s'
  /\ in_flight s'
     = in_flight s
       ++ ((fun u => {| url := u; amenity := queryBy s' |}) <$> sent s s')
  /\ returned s' = returned s ++ queued s s'
  /\ map_step (map_deps_changed s s') s s'.

(** The event that settled the request [req] with [o]. *)
Definition settled (index : nat) (req : Request) (o : Settlement)
    (s s' : App) : Prop :=
  queryBy s' = queryBy s /\ inputFromForm s' = inputFromForm s
  /\ queryResult s' = (fetchQueryDetail_settled (amenity req) o (next_ref s)).1
  /\ console s'
     = console s ++ (fetchQueryDetail_settled (amenity req) o (next_ref s)).2
  /\ returned s'
     = returned s
       ++ [(amenity req, (fetchQueryDetail_settled (amenity req) o (next_ref s)).1)]
  /\ requests s' = requests s
  /\ in_flight s' = delete index (in_flight s)
  /\ mapRef s' = mapRef s
  /\ L.history (leaflet s') = L.history (leaflet s).

(** The layers of a map that are not markers. *)
Definition base_layers (m : L.Map) : list (nat * L.Layer) :=
  filter (fun p => L.instanceof_Marker p.2 = false) (L.layers m).

(** A map as [createMap] set it up: in the element "map", at zoom 13, with
    the tile layer as its only layer that is not a marker. *)
Definition as_created (m : L.Map) : Prop :=
  L.container m = "map" /\ L.zoom m = 13%Z
  /\ exists tile_id, base_layers m = [(tile_id, tile)].

(** One live widget, the one [mapRef] refers to, still as [createMap] set
    it up. *)
Definition based (s : App) : Prop :=
  exists last map_id m h,
    leaflet s = one last map_id m h /\ mapRef s = Some map_id
    /\ wf_layers last (L.layers m) /\ as_created m.

(** [u] asks the Overpass API for the amenities [q], one of the four types,
    within 5000 of a point given by two numbers. *)
Definition overpass_request (u q : string) : Prop :=
  q ∈ option_values
  /\ exists la lo,
       u = "https://overpass-api.de/api/interpreter?data=[out:json];node(around:5000,"
           +:+ toString la +:+ "," +:+ toString lo
           +:+ ")[amenity=" +:+ q +:+ "];out;".





(** The form with a name only. *)
Definition named_only : App := Eval vm_compute in state_after [ChangeName "X"].

(** Hospitals were fetched and drawn. *)
Definition drawn : App :=
  Eval vm_compute in
    state_after (fill_form
                 ++ [Submit;
                     Settle 0 (json_resolves (json_object (Some [clinic; unnamed])))]).

(** Hospitals were fetched and drawn, then the latitude was edited. *)
Definition edited : App :=
  Eval vm_compute in
    state_after (fill_form
                 ++ [Submit;
                     Settle 0 (json_resolves (json_object (Some [clinic; unnamed])));
                     ChangeLatitude (NumberValue (Num "30"))]).

(** The events that edit a field of the form. *)
Definition is_edit (e : Event) : bool :=
  match e with
  | ChangeName _ | ChangeLatitude _ | ChangeLongitude _ | ChangeType _ => true
  | Submit | SelectAmenity _ | Settle _ _ => false
  end.

(** The component after the events [es], from the state [s] on. *)
Definition run_from (s : App) (es : list Event) : result App :=
  foldl (fun r e => r ≫= step e) (Ok s) es.

(** Hospitals were requested, then schools were selected: two requests are
    in flight. *)
Definition two_in_flight : App :=
  Eval vm_compute in state_after (fill_form ++ [Submit; SelectAmenity 2]).

(** *** The state updates of [onSubmit], one at a time *)

(** [setInputFromForm(values)] and [setQueryBy(values.type)], each as the
    update of the hooks it asks for. *)
Definition setInputFromForm (vals : nat * Values) (s : App) : App :=
  set_hooks (queryBy s) (Some vals) s.

Definition setQueryBy (q : string) (s : App) : App :=
  set_hooks q (inputFromForm s) s.

(** Modelled from the spec: how React applies the state updates a handler
    asks for is decided where the component is mounted, and the file that
    mounts [App] is not among the sources.  The spec has one fetch per
    submission, which is the behaviour of a root made with [createRoot] of
    React 18: the updates of one handler are applied together, and one
    render cycle follows. *)
Definition batched (updates : list (App -> App)) (s : App) : result App :=
  commit s (foldl (fun s' update => update s') s updates) ≫= run_microtasks.

(** For comparison, the same updates each followed by its own render cycle,
    as React renders them where it does not batch (a handler that, like
    the [onSubmit] of Formik, runs after an [await], under a root made with
    [ReactDOM.render]). *)
Definition one_by_one (updates : list (App -> App)) (s : App) : result App :=
  foldl (fun r update => r ≫= fun s' => commit s' (update s') ≫= run_microtasks)
    (Ok s) updates.

(** The request of the claim C7. *)
Definition hospital_request : string :=
  "https://overpass-api.de/api/interpreter?data=[out:json];node(around:5000,28.7,77.1)[amenity=hospital];out;".

(** *** Render cycles *)






(** *** Vocabulary of the requests *)

(** The number input [x] holds nothing, or a number whose rendering
    satisfies [P]. *)
Definition typed (P : string -> Prop) (x : NumberInput) : Prop :=
  match x with
  | EmptyInput => True
  | NumberValue n => P (toString n)
  end.

(** Whatever number the event [e] puts into a coordinate field has a
    rendering that satisfies [P]. *)
Definition types (P : string -> Prop) (e : Event) : Prop :=
  match e with
  | ChangeLatitude x | ChangeLongitude x => typed P x
  | _ => True
  end.

(** [u] asks the Overpass API for the amenities [q], one of the four
    types, within 5000 of a point whose two coordinates satisfy [P]. *)
Definition around_request (P : string -> Prop) (u q : string) : Prop :=
  q ∈ ["restaurant"; "hospital"; "school"; "place_of_worship"]
  /\ exists la lo,
       P la /\ P lo
       /\ u = "https://overpass-api.de/api/interpreter?data=[out:json];node(around:5000,"
              +:+ la +:+ "," +:+ lo +:+ ")[amenity=" +:+ q +:+ "];out;".

(** The coordinates the form holds, and those stored by the last
    submission, have renderings that satisfy [P]. *)
Definition typed_values (P : string -> Prop) (s : App) : Prop :=
  typed P (latitude (values (formik s)).2)
  /\ typed P (longitude (values (formik s)).2)
  /\ forall r v, inputFromForm s = Some (r, v) ->
       typed P (latitude v) /\ typed P (longitude v).

(** Hospitals were fetched and drawn, the latitude was edited, and the form
    was submitted again. *)
Definition resubmitted : App :=
  Eval vm_compute in
    state_after (fill_form
                 ++ [Submit;
                     Settle 0 (json_resolves (json_object (Some [clinic; unnamed])));
                     ChangeLatitude (NumberValue (Num "30"));
                     Submit]).

(** ** The icons *)

Example amenityIcons_hospital : amenityIcons !! "hospital" = Some hospitalIcon.
Proof. reflexivity. Qed.

Example amenityIcons_empty : amenityIcons !! "" = None.
Proof. reflexivity. Qed.

(** ** Leaflet on a world with one widget *)

Lemma find_one last map_id m h : L.find map_id (one last map_id m h) = Some m.
Proof.
  unfold L.find, one; simpl. rewrite filter_cons_True by done. done.
Qed.

Lemma store_one last last' map_id m m' h :
  L.store map_id m' last' (one last map_id m h) = one last' map_id m' h.
Proof.
  unfold L.store, one; simpl. by rewrite decide_True.
Qed.

Lemma remove_one last map_id m h :
  L.remove map_id (one last map_id m h) = Ok (none last (h ++ [L.Removed map_id])).
Proof.
  unfold L.remove. rewrite find_one. unfold none, one; simpl.
  rewrite filter_cons_False; [done | naive_solver].
Qed.

Lemma map_none el c z ls last h :
  L.map el c z ls (none last h)
  = Ok (S last,
        one (length ls + S last) (S last)
          {| L.container := el; L.center := c; L.zoom := z;
             L.layers := L.stamp_all (S last) ls |}
          (h ++ [L.Created (S last)])).
Proof.
  reflexivity.
Qed.

Lemma removeLayer_one last map_id layer_id m h :
  L.removeLayer map_id layer_id (one last map_id m h)
  = Ok (one last map_id
          (L.set_layers (filter (fun p => p.1 ≠ layer_id) (L.layers m)) m) h).
Proof.
  unfold L.removeLayer. rewrite find_one. by rewrite store_one.
Qed.

Lemma addTo_one mk last map_id m h :
  L.addTo mk map_id (one last map_id m h)
  = Ok (S last,
        one (S last) map_id
          (L.set_layers (L.layers m ++ [(S last, L.MarkerLayer mk)]) m) h).
Proof.
  unfold L.addTo. rewrite find_one. by rewrite store_one.
Qed.

Lemma bindPopup_one last map_id layer_id content m h :
  L.bindPopup map_id layer_id content (one last map_id m h)
  = Ok (one last map_id
          (L.set_layers ((fun p => L.bind content p layer_id) <$> L.layers m) m) h).
Proof.
  unfold L.bindPopup. rewrite find_one. by rewrite store_one.
Qed.

Lemma set_layers_set_layers ls ls' m :
  L.set_layers ls (L.set_layers ls' m) = L.set_layers ls m.
Proof. done. Qed.

(** Binding a popup to a stamp no layer carries changes nothing. *)
Lemma bind_other content layer_id (ls : list (nat * L.Layer)) :
  Forall (fun p => p.1 ≠ layer_id) ls ->
  (fun p => L.bind content p layer_id) <$> ls = ls.
Proof.
  induction 1 as [| p ls Hp _ IH]; [done |].
  rewrite fmap_cons, IH. f_equal. unfold L.bind.
  destruct p as [k [| mk]]; simpl in *; [done |]. by rewrite decide_False.
Qed.

Lemma filter_other_stamp k (ls : list (nat * L.Layer)) :
  k ∉ ls.*1 -> filter (fun p => p.1 ≠ k) ls = ls.
Proof.
  induction ls as [| p ls IH]; [done |].
  rewrite fmap_cons, not_elem_of_cons. intros [Hk Hls].
  rewrite filter_cons_True by done. by rewrite IH.
Qed.

Lemma set_layers_layers m : L.set_layers (L.layers m) m = m.
Proof. by destruct m. Qed.

(** The first loop, layer by layer: what was kept so far, what is still to
    be visited. *)
Lemma clear_markers_loop last map_id m h todo : forall kept,
  NoDup (kept ++ todo).*1 ->
  foldl (fun r p => r ≫=
           (fun w' => if L.instanceof_Marker p.2
                      then L.removeLayer map_id p.1 w' else Ok w'))
    (Ok (one last map_id (L.set_layers (kept ++ todo) m) h)) todo
  = Ok (one last map_id
          (L.set_layers
             (kept ++ filter (fun p => L.instanceof_Marker p.2 = false) todo) m) h).
Proof.
  induction todo as [| p todo IH]; intros kept Hnd; [done |].
  simpl foldl. destruct (L.instanceof_Marker p.2) eqn:Hp.
  - rewrite removeLayer_one. simpl L.layers.
    rewrite filter_cons_False by (rewrite Hp; done).
    rewrite fmap_app, fmap_cons in Hnd.
    apply NoDup_app in Hnd as (Hk & Hdisj & [Hp1 Ht]%NoDup_cons).
    rewrite filter_app, filter_cons_False by naive_solver.
    rewrite !filter_other_stamp; [| done | intros Hin; eapply Hdisj; [done | left]].
    rewrite set_layers_set_layers. apply IH.
    rewrite fmap_app. apply NoDup_app. split_and!; [done | | done].
    intros x Hx Hx'. eapply Hdisj; [done | by right].
  - rewrite filter_cons_True by done.
    rewrite (cons_middle p kept todo), (cons_middle p kept), !app_assoc.
    apply IH. by rewrite <- app_assoc.
Qed.

Lemma clear_markers_one last map_id m h :
  NoDup (L.layers m).*1 ->
  clear_markers map_id (one last map_id m h)
  = Ok (one last map_id
          (L.set_layers
             (filter (fun p => L.instanceof_Marker p.2 = false) (L.layers m)) m) h).
Proof.
  intros Hnd. unfold clear_markers, L.eachLayer. rewrite find_one.
  rewrite <- (set_layers_layers m) at 1.
  apply (clear_markers_loop last map_id m h (L.layers m) []). done.
Qed.

Lemma add_marker_one q last map_id m h obj :
  Forall (fun p => p.1 <= last) (L.layers m) ->
  add_marker (selectedIcon q) map_id obj (one last map_id m h)
  = Ok (one (S last) map_id
          (L.set_layers
             (L.layers m ++ [(S last, L.MarkerLayer (marker_of q obj))]) m) h).
Proof.
  intros Hle. unfold add_marker. rewrite addTo_one. simpl.
  rewrite bindPopup_one. simpl L.layers. rewrite set_layers_set_layers.
  rewrite fmap_app, bind_other.
  - simpl. unfold L.bind; simpl. by rewrite decide_True.
  - eapply Forall_impl; [done |]. simpl. lia.
Qed.

(** The second loop, element by element. *)
Lemma add_markers_loop q map_id m h l : forall last ls,
  Forall (fun p => p.1 <= last) ls ->
  foldl (fun r obj => r ≫= add_marker (selectedIcon q) map_id obj)
    (Ok (one last map_id (L.set_layers ls m) h)) l
  = Ok (one (last + length l) map_id
          (L.set_layers
             (ls ++ L.stamp_all last (L.MarkerLayer <$> (marker_of q <$> l))) m) h).
Proof.
  induction l as [| obj l IH]; intros last ls Hle.
  - simpl. by rewrite Nat.add_0_r, app_nil_r.
  - simpl foldl. rewrite add_marker_one by done. simpl L.layers.
    rewrite set_layers_set_layers, IH.
    + simpl. rewrite <- app_assoc. simpl. do 2 f_equal. lia.
    + apply Forall_app. split.
      * eapply Forall_impl; [done |]. simpl. lia.
      * by repeat constructor.
Qed.

Lemma stamp_all_fst last ls : (L.stamp_all last ls).*1 = seq (S last) (length ls).
Proof.
  revert last. induction ls as [| l ls IH]; intros last; [done |].
  simpl. by rewrite IH.
Qed.

Lemma markers_stamp_all last ms :
  omap (fun p : nat * L.Layer =>
          match p.2 with
          | L.MarkerLayer mk => Some mk
          | L.TileLayer _ _ => None
          end) (L.stamp_all last (L.MarkerLayer <$> ms)) = ms.
Proof.
  revert last. induction ms as [| mk ms IH]; intros last; [done |].
  simpl. by rewrite IH.
Qed.

Lemma markers_filtered (ls : list (nat * L.Layer)) :
  omap (fun p : nat * L.Layer =>
          match p.2 with
          | L.MarkerLayer mk => Some mk
          | L.TileLayer _ _ => None
          end) (filter (fun p => L.instanceof_Marker p.2 = false) ls) = [].
Proof.
  induction ls as [| [k [u a | mk]] ls IH]; [done | |].
  - rewrite filter_cons_True by done. simpl. apply IH.
  - rewrite filter_cons_False by done. apply IH.
Qed.

Lemma markers_redrawn last ms m : L.markers (redrawn last ms m) = ms.
Proof.
  unfold L.markers, redrawn; simpl.
  by rewrite omap_app, markers_filtered, markers_stamp_all.
Qed.

Lemma wf_layers_redrawn last ms m :
  wf_layers last (L.layers m) ->
  wf_layers (last + length ms) (L.layers (redrawn last ms m)).
Proof.
  intros [Hnd Hle]. unfold redrawn; simpl. split.
  - rewrite fmap_app, stamp_all_fst, length_fmap. apply NoDup_app. split_and!.
    + clear Hle. induction (L.layers m) as [| p ls IH]; [constructor |].
      apply NoDup_cons in Hnd as [Hp Hnd].
      destruct (decide (L.instanceof_Marker p.2 = false)).
      * rewrite filter_cons_True by done. rewrite fmap_cons. apply NoDup_cons.
        split; [| by apply IH]. intros (p' & Heq & [_ Hin]%list_elem_of_filter)%list_elem_of_fmap.
        apply Hp. rewrite Heq. by apply list_elem_of_fmap_2.
      * rewrite filter_cons_False by done. by apply IH.
    + intros k (p & -> & [_ Hin]%list_elem_of_filter)%list_elem_of_fmap Hk.
      apply elem_of_seq in Hk. rewrite Forall_forall in Hle.
      specialize (Hle p Hin). simpl in Hle. lia.
    + apply NoDup_seq.
  - apply Forall_app. split.
    + apply Forall_forall. intros p [_ Hin]%list_elem_of_filter.
      rewrite Forall_forall in Hle. specialize (Hle p Hin). simpl in *. lia.
    + apply Forall_forall. intros p Hin.
      assert (p.1 ∈ seq (S last) (length ms)) as Hk.
      { rewrite <- (length_fmap L.MarkerLayer ms), <- stamp_all_fst.
        by apply list_elem_of_fmap_2. }
      apply elem_of_seq in Hk. lia.
Qed.

(** ** The effects on a world with one widget *)

Lemma bind_Ok {A B} (a : A) (f : A -> result B) : Ok a ≫= f = f a.
Proof. done. Qed.

Lemma marker_effect_one s last map_id m h :
  leaflet s = one last map_id m h ->
  mapRef s = Some map_id ->
  wf_layers last (L.layers m) ->
  marker_effect s
  = Ok (set_map (Some map_id)
          (one (last + length (elements_of (queryResult s))) map_id
             (redrawn last (rendering (queryBy s) (queryResult s)) m) h) s).
Proof.
  intros Hw Hr [Hnd Hle]. unfold marker_effect. rewrite Hr, Hw.
  rewrite clear_markers_one by done. simpl.
  unfold forEach, rendering, redrawn. destruct (queryResult s) as [| r l]; simpl.
  - by rewrite Nat.add_0_r, app_nil_r.
  - rewrite add_markers_loop; [done |].
    apply Forall_forall. intros p [_ Hin]%list_elem_of_filter.
    rewrite Forall_forall in Hle. by apply Hle.
Qed.

Lemma map_cleanup_one s last map_id m h :
  leaflet s = one last map_id m h ->
  mapRef s = Some map_id ->
  map_cleanup s
  = Ok (set_map (Some map_id) (none last (h ++ [L.Removed map_id])) s).
Proof.
  intros Hw Hr. unfold map_cleanup. rewrite Hr, Hw, remove_one. done.
Qed.

Lemma map_effect_none s last h :
  leaflet s = none last h ->
  map_effect s
  = Ok (fetchQueryDetail (queryBy s)
          (set_map (Some (S last))
             (one (S (S last)) (S last) (fresh_map (inputFromForm s) last)
                (h ++ [L.Created (S last)])) s)).
Proof.
  intros Hw. unfold map_effect, createMap. rewrite Hw, map_none. done.
Qed.

Lemma wf_layers_fresh_map i last : wf_layers (S (S last)) (L.layers (fresh_map i last)).
Proof.
  split; simpl.
  - apply NoDup_singleton.
  - by repeat constructor.
Qed.

(** What [fetchQueryDetail] leaves alone. *)
Lemma fetchQueryDetail_frame q s :
  queryBy (fetchQueryDetail q s) = queryBy s
  /\ queryResult (fetchQueryDetail q s) = queryResult s
  /\ inputFromForm (fetchQueryDetail q s) = inputFromForm s
  /\ mapRef (fetchQueryDetail q s) = mapRef s
  /\ leaflet (fetchQueryDetail q s) = leaflet s
  /\ formik (fetchQueryDetail q s) = formik s
  /\ console (fetchQueryDetail q s) = console s
  /\ returned (fetchQueryDetail q s) = returned s
  /\ next_ref (fetchQueryDetail q s) = next_ref s.
Proof.
  unfold fetchQueryDetail. destruct s; simpl. by repeat case_match.
Qed.

(** The render cycle, by which effects run. *)
Lemma commit_one prev s last map_id m h :
  leaflet s = one last map_id m h ->
  mapRef s = Some map_id ->
  wf_layers last (L.layers m) ->
  commit prev s
  = Ok (if map_deps_changed prev s then
          let h' := h ++ [L.Removed map_id; L.Created (S last)] in
          let s1 := fetchQueryDetail (queryBy s)
                      (set_map (Some (S last))
                         (one (S (S last)) (S last)
                            (fresh_map (inputFromForm s) last) h') s) in
          if marker_deps_changed prev s then
            set_map (Some (S last))
              (one (S (S last) + length (elements_of (queryResult s))) (S last)
                 (redrawn (S (S last)) (rendering (queryBy s) (queryResult s))
                    (fresh_map (inputFromForm s) last)) h') s1
          else s1
        else if marker_deps_changed prev s then
          set_map (Some map_id)
            (one (last + length (elements_of (queryResult s))) map_id
               (redrawn last (rendering (queryBy s) (queryResult s)) m) h) s
        else s).
Proof.
  intros Hw Hr Hwf. unfold commit.
  pose proof (map_cleanup_one _ _ _ _ _ Hw Hr) as Hc.
  set (h' := h ++ [L.Removed map_id; L.Created (S last)]).
  set (s1 := fetchQueryDetail (queryBy s)
               (set_map (Some (S last))
                  (one (S (S last)) (S last)
                     (fresh_map (inputFromForm s) last) h') s)).
  assert (map_effect
            (set_map (Some map_id) (none last (h ++ [L.Removed map_id])) s)
          = Ok s1) as He.
  { rewrite (map_effect_none _ last (h ++ [L.Removed map_id])) by done.
    rewrite <- app_assoc. done. }
  destruct (fetchQueryDetail_frame (queryBy s)
    (set_map (Some (S last))
       (one (S (S last)) (S last) (fresh_map (inputFromForm s) last) h') s))
    as (Hq & Hd & _ & Hm & Hl & _).
  fold s1 in Hq, Hd, Hm, Hl.
  destruct (map_deps_changed prev s), (marker_deps_changed prev s).
  - rewrite Hc, bind_Ok, He, bind_Ok.
    rewrite (marker_effect_one s1 (S (S last)) (S last)
               (fresh_map (inputFromForm s) last) h' Hl Hm
               (wf_layers_fresh_map _ _)).
    by rewrite Hq, Hd.
  - by rewrite Hc, bind_Ok, He, bind_Ok.
  - rewrite !bind_Ok. by apply marker_effect_one.
  - done.
Qed.

(** ** Histories *)

Lemma live_snoc h e :
  L.live (h ++ [e])
  = match e with
    | L.Created i => L.live h ++ [i]
    | L.Removed i => filter (fun j => j ≠ i) (L.live h)
    end.
Proof. unfold L.live. by rewrite foldl_snoc. Qed.

Lemma prefix_snoc_cases {A} (l' l : list A) x :
  l' `prefix_of` l ++ [x] -> l' `prefix_of` l \/ l' = l ++ [x].
Proof.
  intros [k Hk]. destruct k as [| y k _] using rev_ind.
  - right. by rewrite app_nil_r in Hk.
  - left. rewrite app_assoc in Hk. apply app_inj_tail in Hk as [-> _].
    by exists k.
Qed.

Lemma never_two_snoc h e :
  never_two h -> length (L.live (h ++ [e])) <= 1 -> never_two (h ++ [e]).
Proof.
  intros Hh He h' [Hp | ->]%prefix_snoc_cases; [by apply Hh | done].
Qed.

(** Replacing the only live widget keeps the history sound. *)
Lemma never_two_replace h old new :
  L.live h = [old] -> never_two h ->
  L.live (h ++ [L.Removed old; L.Created new]) = [new]
  /\ never_two (h ++ [L.Removed old; L.Created new]).
Proof.
  intros Hl Hh.
  assert (L.live (h ++ [L.Removed old]) = []) as Hr.
  { rewrite live_snoc, Hl. rewrite filter_cons_False by naive_solver. done. }
  rewrite (cons_middle (L.Removed old) h [L.Created new]), app_assoc.
  split.
  - by rewrite live_snoc, Hr.
  - apply never_two_snoc.
    + apply never_two_snoc; [done |]. rewrite Hr. simpl. lia.
    + rewrite live_snoc, Hr. simpl. lia.
Qed.

(** ** The render cycle keeps the world fitting the hooks *)

Lemma map_deps_unchanged prev s :
  map_deps_changed prev s = false ->
  queryBy prev = queryBy s
  /\ same_object (inputFromForm prev) (inputFromForm s) = true.
Proof.
  unfold map_deps_changed. intros [H1 H2]%orb_false_elim.
  apply negb_false_iff in H1, H2. by apply bool_decide_eq_true in H1.
Qed.

Lemma marker_deps_unchanged prev s :
  marker_deps_changed prev s = false ->
  Object_is (queryResult prev) (queryResult s) = true
  /\ queryBy prev = queryBy s.
Proof.
  unfold marker_deps_changed. intros [H1 H2]%orb_false_elim.
  apply negb_false_iff in H1, H2. by apply bool_decide_eq_true in H2.
Qed.

Lemma current_map_one s last map_id m h :
  leaflet s = one last map_id m h -> mapRef s = Some map_id ->
  current_map s = Some m.
Proof.
  intros Hw Hr. unfold current_map. rewrite Hr, Hw. simpl. apply find_one.
Qed.

(** What [fetchQueryDetail] does to the network. *)
Lemma fetchQueryDetail_network q s :
  requests (fetchQueryDetail q s)
  = requests s ++ match inputFromForm s with
                  | Some (_, v) => [overpass_url v q]
                  | None => []
                  end
  /\ in_flight (fetchQueryDetail q s)
     = in_flight s
       ++ ((fun u => {| url := u; amenity := q |})
           <$> match inputFromForm s with
               | Some (_, v) => [overpass_url v q]
               | None => []
               end)
  /\ microtasks (fetchQueryDetail q s)
     = microtasks s ++ match inputFromForm s with
                       | Some _ => []
                       | None => [(q, undefined)]
                       end.
Proof.
  unfold fetchQueryDetail. destruct s; simpl.
  repeat case_match; by rewrite ?app_nil_r.
Qed.

Lemma commit_ok prev s :
  world_ok (queryBy prev) (queryResult prev) (inputFromForm prev)
    (leaflet s) (mapRef s) ->
  (same_object (inputFromForm prev) (inputFromForm s) = true ->
   inputFromForm prev = inputFromForm s) ->
  (Object_is (queryResult prev) (queryResult s) = true ->
   queryResult prev = queryResult s) ->
  exists s',
    commit prev s = Ok s'
    /\ world_ok (queryBy s) (queryResult s) (inputFromForm s)
         (leaflet s') (mapRef s')
    /\ same_component s s'
    /\ requests s' = requests s ++ sent prev s
    /\ in_flight s'
       = in_flight s
         ++ ((fun u => {| url := u; amenity := queryBy s |}) <$> sent prev s)
    /\ microtasks s' = microtasks s ++ queued prev s
    /\ map_step (map_deps_changed prev s) s s'
    /\ (marker_deps_changed prev s = true ->
        exists m', current_map s' = Some m'
                   /\ L.markers m' = rendering (queryBy s) (queryResult s)).
Proof.
  intros (last & map_id & m & h & Hw & Hr & Hid & Hwf & Hc & Hmk & Hl & Hh) Hi Hd.
  rewrite (commit_one prev s last map_id m h Hw Hr Hwf).
  eexists; split; [reflexivity |].
  destruct (never_two_replace h map_id (S last) Hl Hh) as [Hl' Hh'].
  assert (length (rendering (queryBy s) (queryResult s))
          = length (elements_of (queryResult s))) as Hlen
    by apply length_fmap.
  cbv zeta.
  set (s0 := set_map (Some (S last))
               (one (S (S last)) (S last) (fresh_map (inputFromForm s) last)
                  (h ++ [L.Removed map_id; L.Created (S last)])) s).
  destruct (fetchQueryDetail_frame (queryBy s) s0)
    as (Hq1 & Hd1 & Hi1 & Hm1 & Hl1 & Hf1 & Hc1 & Hr1 & Hn1).
  destruct (fetchQueryDetail_network (queryBy s) s0) as (Hrq & Hfl & Hmt).
  change (inputFromForm s0) with (inputFromForm s) in Hrq, Hfl, Hmt.
  change (requests s0) with (requests s) in Hrq.
  change (in_flight s0) with (in_flight s) in Hfl.
  change (microtasks s0) with (microtasks s) in Hmt.
  set (s1 := fetchQueryDetail (queryBy s) s0) in *.
  unfold sent, queued.
  destruct (map_deps_changed prev s) eqn:Hmap;
    destruct (marker_deps_changed prev s) eqn:Hmark.
  - (* both effects *)
    split_and!; [| done | exact Hrq | exact Hfl | exact Hmt | |].
    + eexists _, _, _, _.
      split_and!; [reflexivity | reflexivity | lia | | | | done | done].
      * rewrite <- Hlen. apply wf_layers_redrawn, wf_layers_fresh_map.
      * done.
      * right. apply markers_redrawn.
    + exists map_id, (S last).
      split_and!; [done | done | lia | by rewrite Hw].
    + intros _. eexists. split; [eapply current_map_one; reflexivity |].
      apply markers_redrawn.
  - (* the first effect alone *)
    split_and!; [| done | exact Hrq | exact Hfl | exact Hmt | | done].
    + rewrite Hl1, Hm1. eexists _, _, _, _.
      split_and!; [reflexivity | reflexivity | lia | | | | done | done].
      * apply wf_layers_fresh_map.
      * done.
      * by left.
    + exists map_id, (S last).
      split_and!; [done | done | lia | by rewrite Hl1, Hw].
  - (* the second effect alone *)
    apply map_deps_unchanged in Hmap as [Hq Hsame]. rewrite <- (Hi Hsame).
    split_and!; try (by rewrite ?app_nil_r).
    + eexists _, _, _, _.
      split_and!; [reflexivity | reflexivity | lia | | | | done | done].
      * rewrite <- Hlen. by apply wf_layers_redrawn.
      * done.
      * right. apply markers_redrawn.
    + split; simpl; [by rewrite Hr | by rewrite Hw].
    + intros _. eexists. split; [eapply current_map_one; reflexivity |].
      apply markers_redrawn.
  - (* no effect *)
    apply map_deps_unchanged in Hmap as [Hq Hsame].
    apply marker_deps_unchanged in Hmark as [Hobj _].
    rewrite <- (Hi Hsame), <- (Hd Hobj), <- Hq.
    split_and!; try (by rewrite ?app_nil_r).
    by eexists _, _, _, _.
Qed.

(** ** Continuations *)

Lemma same_object_refl i : same_object i i = true.
Proof. destruct i as [[r v] |]; simpl; [by apply bool_decide_eq_true | done]. Qed.

Lemma rest_ok_same s s' : rest_ok s -> same_component s s' -> rest_ok s'.
Proof.
  intros [Hf Hh Hs Ht Hq Hr] (Eq & Ed & Ei & Ef & _ & Er & En).
  split; unfold fresh_result, heap_ok in *.
  - by rewrite Ed, En.
  - by rewrite Ef, En, Ei.
  - by rewrite Ei, Eq.
  - by rewrite Ef.
  - by rewrite Eq.
  - by rewrite Er, Ed.
Qed.

Lemma Object_is_fresh s d :
  fresh_result s ->
  d = undefined \/ (exists l, d = array (next_ref s) l) ->
  Object_is (queryResult s) d = true -> queryResult s = d.
Proof.
  unfold fresh_result. intros Hf [-> | [l ->]]; destruct (queryResult s); simpl; try done.
  intros ->%bool_decide_eq_true. lia.
Qed.

(** [setQueryResult(data)] with what a call of [fetchQueryDetail] returned:
    the stored result becomes [data] and the map shows its markers. *)
Lemma resume_ok q d logged s :
  world_ok (queryBy s) (queryResult s) (inputFromForm s) (leaflet s) (mapRef s) ->
  rest_ok s ->
  d = undefined \/ (exists l, d = array (next_ref s) l) ->
  exists s',
    resume q d logged s = Ok s'
    /\ world_ok (queryBy s') (queryResult s') (inputFromForm s')
         (leaflet s') (mapRef s')
    /\ rest_ok s'
    /\ queryBy s' = queryBy s /\ queryResult s' = d
    /\ inputFromForm s' = inputFromForm s /\ formik s' = formik s
    /\ console s' = console s ++ logged
    /\ returned s' = returned s ++ [(q, d)]
    /\ requests s' = requests s /\ in_flight s' = in_flight s
    /\ microtasks s' = microtasks s
    /\ mapRef s' = mapRef s
    /\ L.history (leaflet s') = L.history (leaflet s)
    /\ exists m', current_map s' = Some m'
                  /\ L.markers m' = rendering (queryBy s) d.
Proof.
  intros Hw Hrest Hd. unfold resume.
  set (s1 := set_returned (console s ++ logged) (returned s ++ [(q, d)])
               (S (next_ref s)) s).
  destruct (commit_ok s1 (set_queryResult d s1)) as
    (s' & Hs' & Hw' & (Eq & Ed & Ei & Ef & Ec & Er & En) & Hrq & Hfl & Hmt
     & Hmap & Hmk).
  { exact Hw. }
  { done. }
  { apply (Object_is_fresh s d); [apply Hrest | done]. }
  assert (map_deps_changed s1 (set_queryResult d s1) = false) as Hno.
  { unfold map_deps_changed. simpl.
    by rewrite bool_decide_eq_true_2, same_object_refl. }
  unfold sent, queued in *. rewrite Hno in *. simpl in Hmap.
  rewrite app_nil_r in Hrq, Hmt. simpl in Hfl. rewrite app_nil_r in Hfl.
  destruct Hmap as [Hmr Hhist].
  exists s'. split; [exact Hs' |].
  simpl in Eq, Ed, Ei, Ef, Ec, Er, En, Hrq, Hfl, Hmt, Hmr, Hhist, Hw'.
  split_and!; try done.
  - by rewrite Eq, Ed, Ei.
  - destruct Hrest as [Hf [Hh1 Hh2] Hsub Ht Hq Hr].
    split; unfold fresh_result, heap_ok.
    + rewrite Ed, En. destruct Hd as [-> | [l ->]]; [done | lia].
    + rewrite Ef, En, Ei. split; [lia |]. intros r v Hin.
      destruct (Hh2 r v Hin). split; [lia | done].
    + by rewrite Ei, Eq.
    + by rewrite Ef.
    + by rewrite Eq.
    + exists q. by rewrite Er, Ed, last_snoc.
  - destruct (marker_deps_changed s1 (set_queryResult d s1)) eqn:Hmark.
    + by apply Hmk.
    + apply marker_deps_unchanged in Hmark as [Hobj _]. simpl in Hobj.
      pose proof (Object_is_fresh s d (ok_fresh s Hrest) Hd Hobj) as Hsame.
      destruct Hw' as (last & map_id & m & h & Hl & Hr & _ & _ & _ & Hmks & _).
      exists m. split; [by eapply current_map_one |].
      destruct Hmks as [Hnil | Hmks]; [| done].
      rewrite Hnil. destruct Hd as [-> | [l ->]]; [done |].
      pose proof (ok_fresh s Hrest) as Hf. unfold fresh_result in Hf.
      rewrite Hsame in Hf. lia.
Qed.

Lemma queued_cases prev s :
  queued prev s = [] \/ queued prev s = [(queryBy s, undefined)].
Proof.
  unfold queued. destruct (map_deps_changed prev s); [| by left].
  destruct (inputFromForm s); [by left | by right].
Qed.

(** A render cycle and the continuations it queued: the component is back
    in a state that satisfies the invariant. *)
Lemma render_ok prev s :
  world_ok (queryBy prev) (queryResult prev) (inputFromForm prev)
    (leaflet s) (mapRef s) ->
  rest_ok s ->
  microtasks s = [] ->
  (same_object (inputFromForm prev) (inputFromForm s) = true ->
   inputFromForm prev = inputFromForm s) ->
  (Object_is (queryResult prev) (queryResult s) = true ->
   queryResult prev = queryResult s) ->
  exists s',
    commit prev s ≫= run_microtasks = Ok s'
    /\ Inv s'
    /\ queryBy s' = queryBy s /\ inputFromForm s' = inputFromForm s
    /\ formik s' = formik s /\ console s' = console s
    /\ requests s' = requests s ++ sent prev s
    /\ in_flight s'
       = in_flight s
         ++ ((fun u => {| url := u; amenity := queryBy s |}) <$> sent prev s)
    /\ returned s' = returned s ++ queued prev s
    /\ queryResult s' = match queued prev s with
                        | [] => queryResult s
                        | _ => undefined
                        end
    /\ map_step (map_deps_changed prev s) s s'
    /\ (marker_deps_changed prev s = true ->
        exists m', current_map s' = Some m'
                   /\ L.markers m' = rendering (queryBy s') (queryResult s')).
Proof.
  intros Hw Hrest Hmt0 Hi Hd.
  destruct (commit_ok prev s Hw Hi Hd) as
    (s1 & Hs1 & Hw1 & Hsame & Hrq & Hfl & Hmt & Hmap & Hmk).
  pose proof Hsame as (Eq & Ed & Ei & Ef & Ec & Er & En).
  rewrite Hs1, bind_Ok. unfold run_microtasks. rewrite Hmt, Hmt0, app_nil_l.
  set (s2 := set_network (in_flight s1) [] (requests s1) s1).
  assert (rest_ok s2) as Hrest2.
  { apply (rest_ok_same s); [done |]. exact Hsame. }
  destruct (queued_cases prev s) as [Hq | Hq]; rewrite Hq.
  - exists s2. simpl. split_and!; try done;
      try (by rewrite app_nil_r); try (by destruct (map_deps_changed prev s)).
    + split_and!; [| done | done]. simpl. by rewrite Eq, Ed, Ei.
    + intros Hc. rewrite Eq, Ed. by apply Hmk.
  - simpl foldl.
    destruct (resume_ok (queryBy s) undefined [] s2) as
      (s' & Hs' & Hw' & Hrest' & Eq' & Ed' & Ei' & Ef' & Ec' & Er' & Hrq' & Hfl'
       & Hmt' & Hmr' & Hh' & m' & Hcur & Hmks).
    { simpl. by rewrite Eq, Ed, Ei. }
    { done. }
    { by left. }
    simpl in Eq', Ei', Ef', Ec', Er', Hrq', Hfl', Hmt', Hmr', Hh', Hmks.
    exists s'. split; [exact Hs' |]. split_and!; try congruence.
    + by split_and!.
    + by rewrite Ec', app_nil_r.
    + destruct (map_deps_changed prev s); simpl in *.
      * destruct Hmap as (old & new & ? & ? & ? & ?). exists old, new.
        split_and!; congruence.
      * destruct Hmap. split; congruence.
    + intros _. exists m'. split; [done |]. by rewrite Ed', Eq', Eq.
Qed.

(** ** Events keep the invariant *)

Lemma option_value_elem index o :
  typeOptions !! index = Some o -> value o ∈ option_values.
Proof.
  intros Ho. unfold option_values. apply list_elem_of_fmap_2.
  by eapply list_elem_of_lookup_2.
Qed.

Lemma accepts_true v :
  accepts v = true
  <-> name v ≠ "" /\ (exists n, latitude v = NumberValue n)
      /\ (exists n, longitude v = NumberValue n) /\ type v ≠ "".
Proof.
  unfold accepts, validationSchema, no_errors,
    Yup.string_required, Yup.number_required.
  rewrite bool_decide_eq_true. destruct v as [nm la lo ty]; simpl. split.
  - intros H. repeat case_decide; destruct la, lo; try discriminate H; eauto 10.
  - intros (Hn & [n1 ->] & [n2 ->] & Ht). by rewrite !decide_False.
Qed.

Lemma handleChange_inv v s :
  Inv s -> type v ∈ "" :: option_values -> Inv (handleChange v s).
Proof.
  intros (Hw & [Hf [Hh1 Hh2] Hs Ht Hq Hr] & Hmt) Hty.
  split_and!; [exact Hw | | exact Hmt].
  split; unfold fresh_result, heap_ok in *; simpl; try done.
  - destruct (queryResult s); [done | lia].
  - split; [lia |]. intros r v' Hin. destruct (Hh2 r v' Hin). split; lia.
Qed.

(** The form passes the schema: [onSubmit] stores the values and the type,
    and one render cycle follows. *)
Lemma submit_accepted s :
  Inv s ->
  accepts (values (formik s)).2 = true ->
  let vals := values (formik s) in
  let s1 := set_formik {| values := vals; errors := validationSchema vals.2;
                          touched := true |} (next_ref s) s in
  let s2 := set_hooks (type vals.2) (Some vals) s1 in
  exists s',
    handleSubmit s = Ok s'
    /\ Inv s'
    /\ queryBy s' = type vals.2 /\ inputFromForm s' = Some vals
    /\ formik s' = formik s1 /\ console s' = console s
    /\ requests s' = requests s ++ sent s1 s2
    /\ in_flight s'
       = in_flight s
         ++ ((fun u => {| url := u; amenity := type vals.2 |}) <$> sent s1 s2)
    /\ returned s' = returned s ++ queued s1 s2
    /\ queryResult s' = queryResult s
    /\ map_step (map_deps_changed s1 s2) s s'
    /\ (queryBy s ≠ type vals.2 ->
        exists m', current_map s' = Some m'
                   /\ L.markers m' = rendering (queryBy s') (queryResult s')).
Proof.
  intros (Hw & [Hf [Hh1 Hh2] Hs Ht Hq Hr] & Hmt) Hacc vals s1 s2.
  unfold handleSubmit. cbv zeta. rewrite Hacc. unfold onSubmit.
  fold vals. fold s1. fold s2.
  destruct (render_ok s1 s2) as
    (s' & Hs' & Hinv & Eq & Ei & Ef & Ec & Hrq & Hfl & Hrt & Hd & Hmap & Hmk).
  { exact Hw. }
  { split; unfold fresh_result, heap_ok; simpl; try done.
    - split; [done |]. intros r v [= Heq].
      assert (r = vals.1 /\ v = vals.2) as [-> ->] by (by rewrite Heq).
      split; [exact Hh1 | done].
    - intros r v [= Heq].
      assert (v = vals.2) as -> by (by rewrite Heq).
      split; [done |].
      apply accepts_true in Hacc as (_ & _ & _ & Hne).
      apply elem_of_cons in Ht as [? | ?]; done. }
  { exact Hmt. }
  { simpl. destruct (inputFromForm s) as [[r v] |] eqn:Hin; [| done].
    destruct vals as [r' v'] eqn:Hv. simpl.
    intros ->%bool_decide_eq_true. destruct (Hh2 r' v eq_refl) as [_ Hsame].
    unfold vals in Hv. rewrite Hv in Hsame. simpl in Hsame. by rewrite Hsame. }
  { done. }
  exists s'. split; [exact Hs' |]. split_and!; try done.
  - simpl in Hd.
    destruct (queued_cases s1 s2) as [Hqd | Hqd]; rewrite Hqd in Hd; [done |].
    unfold queued in Hqd. simpl in Hqd. by destruct (map_deps_changed s1 s2).
  - intros Hne. apply Hmk. unfold marker_deps_changed. simpl.
    rewrite (bool_decide_eq_false_2 _ Hne). apply orb_true_r.
Qed.

(** The amenity selector changes: one render cycle. *)
Lemma select_ok s q :
  Inv s ->
  q ∈ option_values ->
  let s2 := set_hooks q (inputFromForm s) s in
  exists s',
    onChange q s = Ok s'
    /\ Inv s'
    /\ queryBy s' = q /\ inputFromForm s' = inputFromForm s
    /\ formik s' = formik s /\ console s' = console s
    /\ requests s' = requests s ++ sent s s2
    /\ in_flight s'
       = in_flight s ++ ((fun u => {| url := u; amenity := q |}) <$> sent s s2)
    /\ returned s' = returned s ++ queued s s2
    /\ queryResult s' = match queued s s2 with
                        | [] => queryResult s
                        | _ => undefined
                        end
    /\ map_step (map_deps_changed s s2) s s'
    /\ (queryBy s ≠ q ->
        exists m', current_map s' = Some m'
                   /\ L.markers m' = rendering (queryBy s') (queryResult s')).
Proof.
  intros (Hw & [Hf [Hh1 Hh2] Hs Ht Hq Hr] & Hmt) Hin s2. unfold onChange. fold s2.
  destruct (render_ok s s2) as
    (s' & Hs' & Hinv & Eq & Ei & Ef & Ec & Hrq & Hfl & Hrt & Hd & Hmap & Hmk).
  { exact Hw. }
  { split; unfold fresh_result, heap_ok; simpl; try done.
    - intros r v Hi. destruct (Hs r v Hi). done.
    - by right. }
  { exact Hmt. }
  { done. }
  { done. }
  exists s'. split; [exact Hs' |]. split_and!; try done.
  intros Hne. apply Hmk. unfold marker_deps_changed. simpl.
  rewrite (bool_decide_eq_false_2 _ Hne). apply orb_true_r.
Qed.

Lemma Inv_set_network fl rq s :
  world_ok (queryBy s) (queryResult s) (inputFromForm s) (leaflet s) (mapRef s) ->
  rest_ok s ->
  Inv (set_network fl [] rq s).
Proof.
  intros Hw Hrest. split_and!; [exact Hw | | done].
  apply (rest_ok_same s); [done |]. by repeat split.
Qed.

Lemma run_microtasks_nil s :
  microtasks s = [] ->
  run_microtasks s = Ok (set_network (in_flight s) [] (requests s) s).
Proof. intros Hmt. unfold run_microtasks. by rewrite Hmt. Qed.

Lemma fetchQueryDetail_settled_data q o fresh :
  (fetchQueryDetail_settled q o fresh).1 = undefined
  \/ exists l, (fetchQueryDetail_settled q o fresh).1 = array fresh l.
Proof.
  destruct o as [e | e | [| [l |]]]; simpl; eauto.
Qed.

(** A request settles: [fetchQueryDetail] returns, the result is stored and
    drawn. *)
Lemma settle_ok s index o req :
  Inv s ->
  in_flight s !! index = Some req ->
  let d := (fetchQueryDetail_settled (amenity req) o (next_ref s)).1 in
  let logged := (fetchQueryDetail_settled (amenity req) o (next_ref s)).2 in
  exists s' m',
    settle index o s = Ok s'
    /\ Inv s'
    /\ queryBy s' = queryBy s /\ queryResult s' = d
    /\ inputFromForm s' = inputFromForm s /\ formik s' = formik s
    /\ console s' = console s ++ logged
    /\ returned s' = returned s ++ [(amenity req, d)]
    /\ requests s' = requests s
    /\ in_flight s' = delete index (in_flight s)
    /\ mapRef s' = mapRef s
    /\ L.history (leaflet s') = L.history (leaflet s)
    /\ current_map s' = Some m'
    /\ L.markers m' = rendering (queryBy s) d.
Proof.
  intros (Hw & Hrest & Hmt) Hreq d logged. unfold settle. rewrite Hreq.
  destruct (fetchQueryDetail_settled (amenity req) o (next_ref s)) as [d' logged']
    eqn:Hset.
  subst d logged. simpl.
  set (s1 := set_network (delete index (in_flight s)) (microtasks s) (requests s) s).
  destruct (resume_ok (amenity req) d' logged' s1) as
    (s' & Hs' & Hw' & Hrest' & Eq' & Ed' & Ei' & Ef' & Ec' & Er' & Hrq' & Hfl'
     & Hmt' & Hmr' & Hh' & m' & Hcur & Hmks).
  { exact Hw. }
  { apply (rest_ok_same s); [done |]. by repeat split. }
  { pose proof (fetchQueryDetail_settled_data (amenity req) o (next_ref s)) as Hd.
    by rewrite Hset in Hd. }
  rewrite Hs', bind_Ok. simpl in Hmt'. rewrite Hmt in Hmt'.
  rewrite (run_microtasks_nil s' Hmt').
  eexists _, m'. split; [reflexivity |]. simpl. split_and!; try done.
  by apply Inv_set_network.
Qed.

Lemma mount_mounted : mount = Ok mounted.
Proof. reflexivity. Qed.

Lemma never_two_nil : never_two [].
Proof. intros h' ->%prefix_nil_inv. simpl. lia. Qed.

Lemma Inv_mounted : Inv mounted.
Proof.
  split_and!; [| | done].
  - exists 2, 1, (fresh_map None 0), [L.Created 1].
    split_and!; try done; try lia.
    + apply (wf_layers_fresh_map None 0).
    + by left.
    + apply (never_two_snoc [] (L.Created 1)); [apply never_two_nil |].
      simpl. lia.
  - split; unfold fresh_result, heap_ok; simpl; try done.
    + split; [lia | done].
    + by left.
    + by left.
    + by exists "".
Qed.

Lemma submit_rejected s :
  accepts (values (formik s)).2 = false ->
  handleSubmit s
  = Ok (set_formik {| values := values (formik s);
                      errors := validationSchema (values (formik s)).2;
                      touched := true |} (next_ref s) s).
Proof. intros Hacc. unfold handleSubmit. cbv zeta. by rewrite Hacc. Qed.

Lemma Inv_touched s f :
  Inv s -> values f = values (formik s) -> Inv (set_formik f (next_ref s) s).
Proof.
  intros (Hw & [Hf [Hh1 Hh2] Hs Ht Hq Hr] & Hmt) Hv.
  split_and!; [exact Hw | | exact Hmt].
  split; unfold fresh_result, heap_ok in *; simpl; rewrite ?Hv; done.
Qed.

Lemma step_inv e s : Inv s -> exists s', step e s = Ok s' /\ Inv s'.
Proof.
  intros Hinv. pose proof Hinv as (_ & [_ _ _ Ht _ _] & _).
  destruct e as [text | x | x | index | | index | index o]; simpl.
  - eexists; split; [done |]. by apply handleChange_inv.
  - eexists; split; [done |]. by apply handleChange_inv.
  - eexists; split; [done |]. by apply handleChange_inv.
  - destruct (typeOptions !! index) as [o |] eqn:Ho; [| by eexists].
    eexists; split; [done |]. apply handleChange_inv; [done |].
    right. by eapply option_value_elem.
  - destruct (accepts (values (formik s)).2) eqn:Hacc.
    + destruct (submit_accepted s Hinv Hacc) as (s' & Hs' & Hinv' & _). eauto.
    + rewrite (submit_rejected s Hacc). eexists; split; [done |].
      by apply Inv_touched.
  - destruct (typeOptions !! index) as [o |] eqn:Ho; [| by eexists].
    destruct (select_ok s (value o) Hinv) as (s' & Hs' & Hinv' & _);
      [by eapply option_value_elem | eauto].
  - destruct (in_flight s !! index) as [req |] eqn:Hreq.
    + destruct (settle_ok s index o req Hinv Hreq) as (s' & m' & Hs' & Hinv' & _).
      eauto.
    + unfold settle. rewrite Hreq. eauto.
Qed.

Lemma run_snoc es e : run (es ++ [e]) = run es ≫= step e.
Proof. unfold run. by rewrite foldl_snoc. Qed.

(** Every sequence of events runs without an exception, and leaves the
    component in a state that satisfies the invariant. *)
Lemma run_inv es : exists s, run es = Ok s /\ Inv s.
Proof.
  induction es as [| e es (s & Hs & Hinv)] using rev_ind.
  - exists mounted. split; [apply mount_mounted | apply Inv_mounted].
  - rewrite run_snoc, Hs, bind_Ok. by apply step_inv.
Qed.

Lemma reachable_inv s : reachable s -> Inv s.
Proof.
  intros [es Hes]. destruct (run_inv es) as (s' & Hs' & Hinv). congruence.
Qed.

Lemma reachable_step e s s' : reachable s -> step e s = Ok s' -> reachable s'.
Proof.
  intros [es Hes] Hs. exists (es ++ [e]). by rewrite run_snoc, Hes, bind_Ok.
Qed.

Lemma Inv_current_map s :
  Inv s ->
  exists m, current_map s = Some m
            /\ L.center m = center_for (inputFromForm s)
            /\ (L.markers m = []
                \/ L.markers m = rendering (queryBy s) (queryResult s)).
Proof.
  intros ((last & map_id & m & h & Hw & Hr & _ & _ & Hc & Hm & _) & _).
  exists m. split; [by eapply current_map_one | done].
Qed.

(** ** Strings *)

Lemma append_assoc (a b c : string) : (a +:+ b) +:+ c = a +:+ b +:+ c.
Proof.
  induction a as [| x a IH]; [reflexivity |].
  change (String x ((a +:+ b) +:+ c) = String x (a +:+ b +:+ c)). by f_equal.
Qed.

Lemma contains_middle a sub b : contains sub (a +:+ sub +:+ b).
Proof. by exists a, b. Qed.

Lemma contains_append_l a sub s : contains sub s -> contains sub (a +:+ s).
Proof.
  intros (x & y & ->). exists (a +:+ x), y. by rewrite append_assoc.
Qed.

Lemma popupContent_contains obj :
  contains (template (tags_name obj)) (popupContent obj)
  /\ contains (toString (lat obj)) (popupContent obj)
  /\ contains (toString (lon obj)) (popupContent obj).
Proof.
  unfold popupContent. split_and!.
  - apply contains_middle.
  - do 2 apply contains_append_l. apply contains_middle.
  - do 4 apply contains_append_l. apply contains_middle.
Qed.

(** The popup of an element that has a name. *)
Lemma popupContent_named obj t nm :
  tags obj = Some t -> t !! "name" = Some nm ->
  contains nm (popupContent obj)
  /\ popupContent obj = popup_text nm (lat obj) (lon obj).
Proof.
  intros Ht Hnm.
  assert (template (tags_name obj) = nm) as Hname.
  { unfold tags_name. rewrite Ht. simpl. by rewrite Hnm. }
  unfold popupContent, popup_text. rewrite Hname.
  split; [apply contains_middle | reflexivity].
Qed.

Lemma rendering_drawn q d : drawn_for q (elements_of d) (rendering q d).
Proof.
  unfold drawn_for, rendering. split; [apply length_fmap |].
  intros k obj Hk. exists (marker_of q obj), (popupContent obj).
  rewrite list_lookup_fmap, Hk. split_and!; try done.
  - intros t nm. apply popupContent_named.
  - intros Hnone. unfold popupContent, popup_text, tags_name.
    by destruct Hnone as [-> | (t & -> & Hnm)]; simpl; rewrite ?Hnm.
  - apply popupContent_contains.
  - apply popupContent_contains.
Qed.

(** The second effect with a result list in [queryResult]. *)
Lemma marker_effect_inv s d :
  Inv s ->
  exists s' m',
    marker_effect (set_queryResult d s) = Ok s'
    /\ current_map s' = Some m'
    /\ L.markers m' = rendering (queryBy s) d.
Proof.
  intros ((last & map_id & m & h & Hw & Hr & _ & Hwf & _) & _).
  rewrite (marker_effect_one (set_queryResult d s) last map_id m h Hw Hr Hwf).
  eexists _, _. split; [reflexivity |].
  split; [eapply current_map_one; reflexivity | apply markers_redrawn].
Qed.


Lemma Object_is_refl d : Object_is d d = true.
Proof. destruct d; simpl; [done | by apply bool_decide_eq_true]. Qed.



(** ** C1: which markers the map shows *)


(** *** Every render cycle *)











Lemma reachable_submitted : reachable submitted.
Proof. exists (fill_form ++ [Submit]). reflexivity. Qed.

Lemma reachable_filled : reachable filled.
Proof. exists fill_form. reflexivity. Qed.

Lemma reachable_mounted : reachable mounted.
Proof. exists []. reflexivity. Qed.

(** ** C2: a fetch that fails *)

(** C2: when the request of a call of [fetchQueryDetail] fails, whether
    [fetch] rejects or [response.json()] rejects, the call logs one line
    with [console.error] and returns a new empty array; the render cycle
    that follows leaves no marker on the map; no request is sent again, and
    the event handler returns without an exception and without touching the
    form and its messages. *)
Theorem C2_failed_fetch_logs_and_draws_nothing s index req o error :
  reachable s ->
  in_flight s !! index = Some req ->
  o = fetch_rejects error \/ o = json_rejects error ->
  fetchQueryDetail_settled (amenity req) o (next_ref s)
  = (array (next_ref s) [],
     ["Error fetching " +:+ amenity req +:+ " data: " +:+ error])
  /\ exists s' m',
       step (Settle index o) s = Ok s'
       /\ console s'
          = console s ++ ["Error fetching " +:+ amenity req +:+ " data: " +:+ error]
       /\ queryResult s' = array (next_ref s) []
       /\ returned s' = returned s ++ [(amenity req, array (next_ref s) [])]
       /\ current_map s' = Some m' /\ L.markers m' = []
       /\ requests s' = requests s
       /\ in_flight s' = delete index (in_flight s)
       /\ formik s' = formik s.
Proof.
  intros Hreach Hreq Ho.
  assert (fetchQueryDetail_settled (amenity req) o (next_ref s)
          = (array (next_ref s) [],
             ["Error fetching " +:+ amenity req +:+ " data: " +:+ error])) as Hset
    by (by destruct Ho as [-> | ->]).
  split; [exact Hset |].
  destruct (settle_ok s index o req (reachable_inv s Hreach) Hreq) as
    (s' & m' & Hs' & _ & _ & Hd & _ & Hf & Hc & Hrt & Hrq & Hfl & _ & _ & Hm & Hmk).
  rewrite Hset in Hd, Hc, Hrt, Hmk. simpl in Hd, Hc, Hrt, Hmk.
  exists s', m'. by split_and!.
Qed.

(** C2 on the submitted form, whose request fails with a network error. *)
Lemma C2_witness :
  reachable submitted
  /\ in_flight submitted !! 0
     = Some {| url := overpass_url hospital_values "hospital";
               amenity := "hospital" |}
  /\ exists s' m',
       step (Settle 0 (fetch_rejects "TypeError: Failed to fetch")) submitted = Ok s'
       /\ console s'
          = ["Error fetching hospital data: TypeError: Failed to fetch"]
       /\ current_map s' = Some m' /\ L.markers m' = []
       /\ requests s' = requests submitted.
Proof.
  split; [apply reachable_submitted |]. split; [reflexivity |].
  destruct (C2_failed_fetch_logs_and_draws_nothing submitted 0
              {| url := overpass_url hospital_values "hospital";
                 amenity := "hospital" |}
              (fetch_rejects "TypeError: Failed to fetch")
              "TypeError: Failed to fetch"
              reachable_submitted eq_refl (or_introl eq_refl))
    as (_ & s' & m' & Hs' & Hc & _ & _ & Hm & Hmk & Hrq & _).
  exists s', m'. split_and!; done.
Defined.

(** ** Requests are only in flight after a submission *)

Lemma step_in_flight e s s' :
  Inv s -> step e s = Ok s' ->
  (in_flight s ≠ [] -> inputFromForm s ≠ None) ->
  in_flight s' ≠ [] -> inputFromForm s' ≠ None.
Proof.
  intros Hinv Hs IH.
  destruct e as [text | x | x | index | | index | index o]; simpl in Hs.
  - by injection Hs as <-.
  - by injection Hs as <-.
  - by injection Hs as <-.
  - by destruct (typeOptions !! index); injection Hs as <-.
  - destruct (accepts (values (formik s)).2) eqn:Hacc.
    + destruct (submit_accepted s Hinv Hacc) as (s'' & Hs'' & _ & _ & Ei & _).
      rewrite Hs in Hs''. injection Hs'' as <-. by rewrite Ei.
    + rewrite (submit_rejected s Hacc) in Hs. by injection Hs as <-.
  - destruct (typeOptions !! index) as [o |] eqn:Ho; [| by injection Hs as <-].
    destruct (select_ok s (value o) Hinv) as
      (s'' & Hs'' & _ & _ & Ei & _ & _ & _ & Hfl & _);
      [by eapply option_value_elem |].
    rewrite Hs in Hs''. injection Hs'' as <-. rewrite Ei, Hfl.
    unfold sent. simpl. destruct (inputFromForm s) as [[r v] |]; [done |].
    destruct (map_deps_changed _ _); simpl; by rewrite app_nil_r.
  - destruct (in_flight s !! index) as [req |] eqn:Hreq.
    + destruct (settle_ok s index o req Hinv Hreq) as
        (s'' & m' & Hs'' & _ & _ & _ & Ei & _).
      rewrite Hs in Hs''. injection Hs'' as <-. rewrite Ei. intros _.
      apply IH. intros Hnil. by rewrite Hnil in Hreq.
    + unfold settle in Hs. rewrite Hreq in Hs. by injection Hs as <-.
Qed.

Lemma in_flight_after_submission s :
  reachable s -> in_flight s ≠ [] -> inputFromForm s ≠ None.
Proof.
  intros [es Hes]. revert s Hes.
  induction es as [| e es IH] using rev_ind; intros s Hes.
  - rewrite (mount_mounted : run [] = Ok mounted) in Hes. by injection Hes as <-.
  - rewrite run_snoc in Hes. destruct (run_inv es) as (s0 & Hs0 & Hinv).
    rewrite Hs0, bind_Ok in Hes.
    by apply (step_in_flight e s0 s Hinv Hes), IH.
Qed.

(** Each of the four types has its icon. *)
Lemma amenityIcons_option q :
  q ∈ option_values ->
  exists u, amenityIcons !! q = Some u
            /\ u ∈ [restaurantIcon; hospitalIcon; schoolIcon; templeIcon].
Proof.
  unfold option_values. simpl. intros Hq.
  repeat (apply elem_of_cons in Hq as [-> | Hq];
          [eexists; split; [reflexivity | set_solver] |]).
  by apply elem_of_nil in Hq.
Qed.

(** ** C3: one marker per element *)

(** C3: when a request returns a result list of length N, the render step
    leaves exactly N markers on the map, the k-th at the coordinates of the
    k-th element, with the icon [amenityIcons] gives for the selected type
    (one of the four icons), and with a popup text in which the element's
    latitude and longitude occur and, for an element whose tags hold a
    name, that name: the text then is "Name: " with the name, "latitude: "
    with the latitude and "longitude: " with the longitude. *)
Theorem C3_one_marker_per_element s index req l :
  reachable s ->
  in_flight s !! index = Some req ->
  exists s' m',
    step (Settle index (json_resolves (json_object (Some l)))) s = Ok s'
    /\ elements_of (queryResult s') = l
    /\ queryBy s' = queryBy s
    /\ current_map s' = Some m'
    /\ length (L.markers m') = length l
    /\ drawn_for (queryBy s') l (L.markers m')
    /\ exists u, amenityIcons !! queryBy s' = Some u
                 /\ u ∈ [restaurantIcon; hospitalIcon; schoolIcon; templeIcon].
Proof.
  intros Hreach Hreq. pose proof (reachable_inv s Hreach) as Hinv.
  destruct (settle_ok s index (json_resolves (json_object (Some l))) req
              Hinv Hreq) as
    (s' & m' & Hs' & _ & Hq & Hd & _ & _ & _ & _ & _ & _ & _ & _ & Hm & Hmk).
  simpl in Hd, Hmk. exists s', m'. rewrite Hd, Hq, Hmk.
  pose proof (rendering_drawn (queryBy s) (array (next_ref s) l)) as Hdrawn.
  split_and!; try done; [apply Hdrawn |].
  destruct (inputFromForm s) as [[r v] |] eqn:Hi.
  - destruct Hinv as (_ & [_ _ Hsub _ _ _] & _).
    apply amenityIcons_option. by destruct (Hsub r v Hi).
  - destruct (in_flight_after_submission s Hreach); [| done].
    intros Hnil. by rewrite Hnil in Hreq.
Qed.

(** C3 on the submitted form, whose request returns two elements: the
    first marker is at the clinic, with the hospital icon and the clinic's
    name, latitude and longitude in its popup. *)
Lemma C3_witness :
  reachable submitted
  /\ in_flight submitted !! 0
     = Some {| url := overpass_url hospital_values "hospital";
               amenity := "hospital" |}
  /\ exists s' m',
       step (Settle 0 (json_resolves (json_object (Some [clinic; unnamed]))))
         submitted = Ok s'
       /\ current_map s' = Some m'
       /\ length (L.markers m') = 2
       /\ drawn_for "hospital" [clinic; unnamed] (L.markers m')
       /\ exists mk,
            L.markers m' !! 0 = Some mk
            /\ L.latlng mk = (Num "28.6", Num "77.2")
            /\ L.iconUrl (L.icon mk) = Some hospitalIcon
            /\ L.popup mk
               = Some "<div><b>Name: City Clinic</b> <br/> <b>latitude: 28.6</b> <br/> <b>longitude: 77.2</b></div>".
Proof.
  split; [apply reachable_submitted |]. split; [reflexivity |].
  destruct (C3_one_marker_per_element submitted 0
              {| url := overpass_url hospital_values "hospital";
                 amenity := "hospital" |}
              [clinic; unnamed] reachable_submitted eq_refl)
    as (s' & m' & Hs' & _ & Hq & Hm & Hlen & Hdrawn & _).
  exists s', m'. rewrite Hq in Hdrawn. split_and!; try done.
  destruct Hdrawn as [_ Hk].
  destruct (Hk 0 clinic eq_refl)
    as (mk & content & Hmk & Hll & _ & Hurl & Hpop & Hname & _ & _).
  destruct (Hname (<["name" := "City Clinic"]> ∅) "City Clinic" eq_refl eq_refl)
    as [_ ->].
  exists mk. by split_and!.
Defined.

(** ** C4: the validation schema *)

(** The schema by itself does not compare the type with the four option
    values (it has no [oneOf]): values with another non-empty type, which
    the select of the form cannot produce, would pass it. *)
Remark schema_has_no_oneOf :
  ~ accepts_listed_types_only
      {| name := "X"; latitude := NumberValue (Num "28.7");
         longitude := NumberValue (Num "77.1"); type := "cafe" |}.
Proof.
  intros [Hacc _]. destruct (Hacc eq_refl) as (_ & _ & _ & Hin).
  unfold option_values in Hin. simpl in Hin.
  repeat (apply elem_of_cons in Hin as [Hin | Hin]; [discriminate Hin |]).
  by apply elem_of_nil in Hin.
Qed.

(** C4: whatever the user did to the form, the validation accepts its
    submission if and only if the name is a non-empty string, latitude and
    longitude are present and numeric, and the type is one of the four
    option values (the schema asks for a non-empty type and the select of
    the form holds the empty placeholder or one of the four).  A submission
    that returns has called [onSubmit], storing the values and their type,
    exactly when the validation accepted it.  A submission with an empty
    name is rejected with the message "Name is required", which the form
    then shows, and triggers no call of [fetchQueryDetail] and no request:
    hooks, map, network and console are as before. *)
Theorem C4_validation s :
  reachable s ->
  let v := (values (formik s)).2 in
  (accepts v = true
   <-> name v ≠ "" /\ (exists n, latitude v = NumberValue n)
       /\ (exists n, longitude v = NumberValue n)
       /\ type v ∈ ["restaurant"; "hospital"; "school"; "place_of_worship"])
  /\ (forall s', step Submit s = Ok s' ->
      (accepts v = true ->
       inputFromForm s' = Some (values (formik s)) /\ queryBy s' = type v)
      /\ (accepts v = false -> form_only s s'))
  /\ (name v = "" ->
      accepts v = false
      /\ name_error (validationSchema v) = Some "Name is required"
      /\ exists s',
           step Submit s = Ok s'
           /\ name_error (errors (formik s')) = Some "Name is required"
           /\ touched (formik s') = true
           /\ queryBy s' = queryBy s /\ queryResult s' = queryResult s
           /\ inputFromForm s' = inputFromForm s
           /\ mapRef s' = mapRef s /\ leaflet s' = leaflet s
           /\ requests s' = requests s /\ in_flight s' = in_flight s
           /\ microtasks s' = microtasks s /\ returned s' = returned s
           /\ console s' = console s).
Proof.
  intros Hreach v. pose proof (reachable_inv s Hreach) as Hinv.
  split_and!.
  - pose proof Hinv as (_ & [_ _ _ Ht _ _] & _). fold v in Ht.
    rewrite accepts_true. split.
    + intros (Hn & Hla & Hlo & Hne). split_and!; try done.
      by apply elem_of_cons in Ht as [? | ?].
    + intros (Hn & Hla & Hlo & Hin). split_and!; try done.
      intros Hempty. rewrite Hempty in Hin.
      repeat (apply elem_of_cons in Hin as [Hin | Hin]; [discriminate Hin |]).
      by apply elem_of_nil in Hin.
  - intros s' Hs'. split; intros Hacc.
    + destruct (submit_accepted s Hinv Hacc) as (s'' & Hs'' & _ & Eq & Ei & _).
      simpl in Hs'. rewrite Hs' in Hs''. injection Hs'' as <-. by split.
    + simpl in Hs'. rewrite (submit_rejected s Hacc) in Hs'.
      injection Hs' as <-. by unfold form_only.
  - intros Hname.
    assert (accepts v = false) as Hrej.
    { destruct (accepts v) eqn:Hacc; [| done].
      by apply accepts_true in Hacc as (? & _). }
    split; [done |]. split.
    { unfold validationSchema, Yup.string_required; simpl. by rewrite Hname. }
    simpl. rewrite submit_rejected by done.
    eexists. split; [reflexivity |]. simpl. fold v.
    unfold Yup.string_required. rewrite Hname. by split_and!.
Qed.

(** C4 on the mounted component, whose empty form is submitted, and on the
    form filled with a name, two numbers and the type "hospital". *)
Lemma C4_witness :
  (exists s',
     step Submit mounted = Ok s'
     /\ name_error (errors (formik s')) = Some "Name is required"
     /\ requests s' = [] /\ in_flight s' = [] /\ returned s' = returned mounted)
  /\ accepts (values (formik filled)).2 = true.
Proof.
  split.
  - destruct (C4_validation mounted reachable_mounted) as (_ & _ & Hempty).
    destruct (Hempty eq_refl)
      as (_ & _ & s' & Hs' & He & _ & _ & _ & _ & _ & _ & Hrq & Hfl & _ & Hrt & _).
    exists s'. by split_and!.
  - destruct (C4_validation filled reachable_filled) as ([_ Hacc] & _).
    apply Hacc. split_and!; [done | by eexists | by eexists |].
    simpl. repeat constructor.
Defined.

(** ** C5: the request *)

(** C5: a call of [fetchQueryDetail] made before any submission sends no
    request (it returns [undefined] to its caller's continuation); a call
    made after a submission sends exactly one GET request, whose query
    string carries the radius 5000, the latitude and longitude of the
    submitted values and the amenity tag the call was given.  The submitted
    values of a reachable state passed the schema, so both coordinates are
    numbers. *)
Theorem C5_one_request_per_call (q : string) (s : App) :
  match inputFromForm s with
  | None =>
      requests (fetchQueryDetail q s) = requests s
      /\ in_flight (fetchQueryDetail q s) = in_flight s
      /\ microtasks (fetchQueryDetail q s) = microtasks s ++ [(q, undefined)]
  | Some (_, v) =>
      let u := "https://overpass-api.de/api/interpreter?data=[out:json];node(around:5000,"
               +:+ interpolate (latitude v) +:+ "," +:+ interpolate (longitude v)
               +:+ ")[amenity=" +:+ q +:+ "];out;" in
      requests (fetchQueryDetail q s) = requests s ++ [u]
      /\ in_flight (fetchQueryDetail q s)
         = in_flight s ++ [{| url := u; amenity := q |}]
      /\ microtasks (fetchQueryDetail q s) = microtasks s
      /\ (reachable s ->
          exists la lo,
            latitude v = NumberValue la /\ longitude v = NumberValue lo
            /\ u = "https://overpass-api.de/api/interpreter?data=[out:json];node(around:5000,"
                   +:+ toString la +:+ "," +:+ toString lo
                   +:+ ")[amenity=" +:+ q +:+ "];out;")
  end.
Proof.
  destruct (fetchQueryDetail_network q s) as (Hrq & Hfl & Hmt).
  destruct (inputFromForm s) as [[r v] |] eqn:Hi.
  - cbv zeta. rewrite app_nil_r in Hmt. split_and!; try done.
    intros Hreach.
    pose proof (reachable_inv s Hreach) as (_ & [_ _ Hsub _ _ _] & _).
    destruct (Hsub r v Hi) as [Hacc _].
    apply accepts_true in Hacc as (_ & [la Hla] & [lo Hlo] & _).
    exists la, lo. by rewrite Hla, Hlo.
  - by rewrite !app_nil_r in *.
Qed.

(** C5 on the submitted form and on the mounted component. *)
Lemma C5_witness :
  requests (fetchQueryDetail "school" submitted)
  = requests submitted
    ++ ["https://overpass-api.de/api/interpreter?data=[out:json];node(around:5000,28.7,77.1)[amenity=school];out;"]
  /\ requests (fetchQueryDetail "school" mounted) = requests mounted.
Proof.
  pose proof (C5_one_request_per_call "school" submitted) as Hsub.
  pose proof (C5_one_request_per_call "school" mounted) as Hmnt.
  simpl in Hsub, Hmnt. destruct Hsub as (Hrq & _). destruct Hmnt as (Hrq' & _).
  split; [exact Hrq | exact Hrq'].
Defined.

(** ** C6: the amenity selector *)

(** C6: after a submission, choosing another type in the amenity selector
    changes [queryBy] alone: the stored submitted values, the form and the
    stored result list are as before, and exactly one request is sent, for
    the coordinates of the stored submitted values and the new type. *)
Theorem C6_selector_keeps_submitted_values s index o r v :
  reachable s ->
  inputFromForm s = Some (r, v) ->
  typeOptions !! index = Some o ->
  queryBy s ≠ value o ->
  exists s',
    step (SelectAmenity index) s = Ok s'
    /\ queryBy s' = value o
    /\ inputFromForm s' = Some (r, v)
    /\ formik s' = formik s
    /\ queryResult s' = queryResult s
    /\ console s' = console s /\ returned s' = returned s
    /\ requests s'
       = requests s
         ++ ["https://overpass-api.de/api/interpreter?data=[out:json];node(around:5000,"
             +:+ interpolate (latitude v) +:+ "," +:+ interpolate (longitude v)
             +:+ ")[amenity=" +:+ value o +:+ "];out;"]
    /\ in_flight s'
       = in_flight s ++ [{| url := overpass_url v (value o); amenity := value o |}].
Proof.
  intros Hreach Hi Ho Hne. simpl. rewrite Ho.
  destruct (select_ok s (value o) (reachable_inv s Hreach)) as
    (s' & Hs' & _ & Eq & Ei & Ef & Ec & Hrq & Hfl & Hrt & Hd & _);
    [by eapply option_value_elem |].
  assert (map_deps_changed s (set_hooks (value o) (inputFromForm s) s) = true)
    as Hch.
  { unfold map_deps_changed. simpl. by rewrite (bool_decide_eq_false_2 _ Hne). }
  unfold sent, queued in *. rewrite Hch in *. simpl in Hrq, Hfl, Hrt, Hd.
  rewrite Hi in *. rewrite app_nil_r in Hrt.
  exists s'. by split_and!.
Qed.

(** C6 on the submitted form: the selector goes from hospitals to schools. *)
Lemma C6_witness :
  exists s',
    step (SelectAmenity 2) submitted = Ok s'
    /\ queryBy s' = "school"
    /\ inputFromForm s' = inputFromForm submitted
    /\ requests s'
       = requests submitted
         ++ ["https://overpass-api.de/api/interpreter?data=[out:json];node(around:5000,28.7,77.1)[amenity=school];out;"].
Proof.
  destruct (C6_selector_keeps_submitted_values submitted 2
              {| id := 3; label := "School"; value := "school" |}
              6 hospital_values reachable_submitted eq_refl eq_refl)
    as (s' & Hs' & Hq & Hi & _ & _ & _ & _ & Hrq & _).
  { discriminate. }
  exists s'. by split_and!.
Defined.

(** ** C7: one fetch per submission *)

(** [onSubmit] is its two state updates, applied together. *)
Lemma onSubmit_batched vals s :
  onSubmit vals s = batched [setInputFromForm vals; setQueryBy (type vals.2)] s.
Proof. reflexivity. Qed.

(** A submission that stores the values object already stored and the type
    already selected only marks the form. *)
Lemma resubmission_idle s :
  Inv s ->
  inputFromForm s = Some (values (formik s)) ->
  queryBy s = type (values (formik s)).2 ->
  exists s', handleSubmit s = Ok s' /\ form_only s s'.
Proof.
  intros (_ & [_ _ Hsub _ _ _] & Hmt) Hi Hq.
  destruct (values (formik s)) as [r v] eqn:Hv.
  destruct (Hsub r v Hi) as [Hacc _].
  unfold handleSubmit. cbv zeta. rewrite Hv. simpl. rewrite Hacc.
  unfold onSubmit, commit, map_deps_changed, marker_deps_changed. simpl.
  simpl in Hq. rewrite Hi, <- Hq.
  rewrite !bool_decide_eq_true_2, Object_is_refl by done. simpl.
  rewrite bool_decide_eq_true_2 by done. simpl.
  unfold run_microtasks. simpl. rewrite Hmt. simpl.
  eexists. split; [reflexivity |]. simpl. by repeat split.
Qed.

(** C7, as the claim states it, fails: the form holds the values of the
    claim, they are valid, and submitting it sends no request and calls
    [fetchQueryDetail] not at all, because the same values object and the
    same type were submitted just before: both setters receive what they
    already hold, and no effect runs. *)
Lemma C7_resubmission_fetches_nothing :
  reachable submitted
  /\ (values (formik submitted)).2 = hospital_values
  /\ accepts hospital_values = true
  /\ exists s',
       step Submit submitted = Ok s'
       /\ requests s' = requests submitted
       /\ requests s' ≠ requests submitted ++ [hospital_request]
       /\ in_flight s' = in_flight submitted
       /\ returned s' = returned submitted
       /\ L.history (leaflet s') = L.history (leaflet submitted).
Proof.
  split; [apply reachable_submitted |]. split; [reflexivity |].
  split; [reflexivity |].
  eexists. split; [vm_compute; reflexivity |]. by split_and!.
Qed.

(** The two state updates of [onSubmit] rendered one by one, on the form
    just filled with the values of the claim: two calls of
    [fetchQueryDetail], two requests, the first for the coordinates of the
    claim and the empty type that is still selected when [inputFromForm]
    alone has been set. *)
Remark one_by_one_fetches_twice :
  exists s',
    one_by_one [setInputFromForm (values (formik filled)); setQueryBy "hospital"]
      filled = Ok s'
    /\ requests s'
       = [ "https://overpass-api.de/api/interpreter?data=[out:json];node(around:5000,28.7,77.1)[amenity=];out;";
           hospital_request ].
Proof. eexists. split; [vm_compute; reflexivity | reflexivity]. Qed.

(** C7, amended: submitting the form that holds {name: "X", latitude: 28.7,
    longitude: 77.1, type: "hospital"} calls [onSubmit], whose two state
    updates are applied together and cause one render cycle, not one each.
    Unless the values object is the one already stored and "hospital" the
    type already selected, that render cycle calls [fetchQueryDetail]
    exactly once, and the call sends exactly one request, for latitude
    28.7, longitude 77.1 and amenity "hospital"; no call returns before the
    request settles.  When the values object is the stored one and
    "hospital" is selected (the form is submitted again unchanged), nothing
    is fetched: no request is sent and none is in flight that was not
    before. *)
Theorem C7_submit_fetches_once s :
  reachable s ->
  (values (formik s)).2 = hospital_values ->
  let vals := values (formik s) in
  exists s',
    step Submit s = Ok s'
    /\ step Submit s
       = batched [setInputFromForm vals; setQueryBy "hospital"]
           (set_formik {| values := vals; errors := no_errors; touched := true |}
              (next_ref s) s)
    /\ queryBy s' = "hospital"
    /\ inputFromForm s' = Some vals
    /\ returned s' = returned s
    /\ queryResult s' = queryResult s
    /\ if same_object (inputFromForm s) (Some vals)
          && bool_decide (queryBy s = "hospital")
       then requests s' = requests s /\ in_flight s' = in_flight s
       else requests s'
            = requests s
              ++ ["https://overpass-api.de/api/interpreter?data=[out:json];node(around:5000,28.7,77.1)[amenity=hospital];out;"]
            /\ in_flight s'
               = in_flight s
                 ++ [{| url := "https://overpass-api.de/api/interpreter?data=[out:json];node(around:5000,28.7,77.1)[amenity=hospital];out;";
                        amenity := "hospital" |}].
Proof.
  intros Hreach Hv. cbv zeta. pose proof (reachable_inv s Hreach) as Hinv.
  assert (accepts (values (formik s)).2 = true) as Hacc by (by rewrite Hv).
  assert (step Submit s
          = batched [setInputFromForm (values (formik s)); setQueryBy "hospital"]
              (set_formik {| values := values (formik s); errors := no_errors;
                             touched := true |}
                 (next_ref s) s)) as Hstep.
  { simpl. unfold handleSubmit. cbv zeta. rewrite Hacc.
    rewrite onSubmit_batched. by rewrite Hv. }
  destruct (same_object (inputFromForm s) (Some (values (formik s)))
            && bool_decide (queryBy s = "hospital")) eqn:Hsame.
  - apply andb_true_iff in Hsame as [Hobj Hq].
    apply bool_decide_eq_true in Hq.
    assert (inputFromForm s = Some (values (formik s))) as Hi.
    { pose proof Hinv as (_ & [_ [_ Hheap] _ _ _ _] & _).
      destruct (inputFromForm s) as [[r v] |] eqn:Hin; [| done].
      destruct (Hheap r v eq_refl) as [_ Hsame].
      destruct (values (formik s)) as [r0 v0]. simpl in Hobj, Hsame.
      apply bool_decide_eq_true in Hobj. subst r0. by rewrite (Hsame eq_refl). }
    destruct (resubmission_idle s Hinv Hi) as (s' & Hs' & Hform);
      [by rewrite Hq, Hv |].
    destruct Hform as (Eq & Ed & Ei & _ & _ & Hfl & Hrq & _ & Hrt).
    exists s'. split_and!; try done; by congruence.
  - destruct (submit_accepted s Hinv Hacc) as
      (s' & Hs' & _ & Eq & Ei & _ & _ & Hrq & Hfl & Hrt & Hd & _).
    match type of Hrq with
    | _ = _ ++ sent ?a ?b =>
        assert (map_deps_changed a b = true) as Hch
    end.
    { unfold map_deps_changed. simpl. rewrite Hv. simpl.
      apply andb_false_iff in Hsame as [-> | Hne]; [apply orb_true_r |].
      by rewrite Hne. }
    unfold sent, queued in *. rewrite Hch in *. simpl in Hrq, Hfl, Hrt.
    rewrite Hv in *. rewrite app_nil_r in Hrt.
    destruct (values (formik s)) as [r0 v0] eqn:Hvals. simpl in Hv. subst v0.
    exists s'. by split_and!.
Qed.

(** C7 on the form just filled with the values of the claim, and on the
    same form submitted a second time. *)
Lemma C7_witness :
  reachable filled
  /\ (values (formik filled)).2 = hospital_values
  /\ requests filled = []
  /\ (exists s',
        step Submit filled = Ok s'
        /\ requests s'
           = ["https://overpass-api.de/api/interpreter?data=[out:json];node(around:5000,28.7,77.1)[amenity=hospital];out;"]
        /\ length (in_flight s') = 1
        /\ queryBy s' = "hospital")
  /\ exists s', step Submit submitted = Ok s' /\ requests s' = requests submitted.
Proof.
  split; [apply reachable_filled |]. split; [reflexivity |]. split; [reflexivity |].
  split.
  - destruct (C7_submit_fetches_once filled reachable_filled eq_refl)
      as (s' & Hs' & _ & Hq & _ & _ & _ & Hrq & Hfl).
    exists s'. split_and!; [done | done | by rewrite Hfl | done].
  - destruct (C7_submit_fetches_once submitted reachable_submitted eq_refl)
      as (s' & Hs' & _ & _ & _ & _ & _ & Hrq & _).
    by exists s'.
Defined.

(** ** C8: the map widget *)

Lemma map_step_unchanged s s' :
  queryBy s' = queryBy s -> inputFromForm s' = inputFromForm s ->
  mapRef s' = mapRef s -> L.history (leaflet s') = L.history (leaflet s) ->
  map_step (map_deps_changed s s') s s'.
Proof.
  intros Eq Ei Hm Hh. unfold map_deps_changed.
  rewrite Eq, Ei, bool_decide_eq_true_2, same_object_refl by done. by split.
Qed.

(** What an event does to the widget. *)
Lemma step_map e s s' :
  Inv s -> step e s = Ok s' -> map_step (map_deps_changed s s') s s'.
Proof.
  intros Hinv Hs.
  destruct e as [text | x | x | index | | index | index o]; simpl in Hs.
  - injection Hs as <-. by apply map_step_unchanged.
  - injection Hs as <-. by apply map_step_unchanged.
  - injection Hs as <-. by apply map_step_unchanged.
  - destruct (typeOptions !! index); injection Hs as <-;
      by apply map_step_unchanged.
  - destruct (accepts (values (formik s)).2) eqn:Hacc.
    + destruct (submit_accepted s Hinv Hacc) as
        (s'' & Hs'' & _ & Eq & Ei & _ & _ & _ & _ & _ & _ & Hmap & _).
      rewrite Hs in Hs''. injection Hs'' as <-.
      unfold map_deps_changed in *. simpl in Hmap. by rewrite Eq, Ei.
    + rewrite (submit_rejected s Hacc) in Hs. injection Hs as <-.
      by apply map_step_unchanged.
  - destruct (typeOptions !! index) as [o |] eqn:Ho.
    + destruct (select_ok s (value o) Hinv) as
        (s'' & Hs'' & _ & Eq & Ei & _ & _ & _ & _ & _ & _ & Hmap & _);
        [by eapply option_value_elem |].
      rewrite Hs in Hs''. injection Hs'' as <-.
      unfold map_deps_changed in *. simpl in Hmap. by rewrite Eq, Ei.
    + injection Hs as <-. by apply map_step_unchanged.
  - destruct (in_flight s !! index) as [req |] eqn:Hreq.
    + destruct (settle_ok s index o req Hinv Hreq) as
        (s'' & m' & Hs'' & _ & Eq & _ & Ei & _ & _ & _ & _ & _ & Hm & Hh & _).
      rewrite Hs in Hs''. injection Hs'' as <-.
      by apply map_step_unchanged.
    + unfold settle in Hs. rewrite Hreq in Hs. injection Hs as <-.
      by apply map_step_unchanged.
Qed.

(** C8: across every event there is exactly one live map widget, the one
    [mapRef] refers to, centred on the submitted coordinates when there is
    a submission and on (28.7041, 77.1025) otherwise, and at no point of the
    history of creations and removals were two widgets live.  When the
    event changes the selected type or the submitted values object, the
    previous widget is removed and then a new one is created; otherwise the
    widget stays. *)
Theorem C8_one_map_recreated_on_change e s s' :
  reachable s ->
  step e s = Ok s' ->
  never_two (L.history (leaflet s'))
  /\ (exists map_id m',
        mapRef s' = Some map_id
        /\ L.maps (leaflet s') = [(map_id, m')]
        /\ L.live (L.history (leaflet s')) = [map_id]
        /\ match inputFromForm s' with
           | Some (_, v) =>
               latitude v = NumberValue (L.center m').1
               /\ longitude v = NumberValue (L.center m').2
           | None => L.center m' = (Num "28.7041", Num "77.1025")
           end)
  /\ (queryBy s' ≠ queryBy s
      \/ same_object (inputFromForm s) (inputFromForm s') = false ->
      exists old new,
        mapRef s = Some old /\ mapRef s' = Some new /\ old ≠ new
        /\ L.history (leaflet s')
           = L.history (leaflet s) ++ [L.Removed old; L.Created new])
  /\ (queryBy s' = queryBy s ->
      same_object (inputFromForm s) (inputFromForm s') = true ->
      mapRef s' = mapRef s
      /\ L.history (leaflet s') = L.history (leaflet s)).
Proof.
  intros Hreach Hs. pose proof (reachable_inv s Hreach) as Hinv.
  pose proof (reachable_inv s' (reachable_step e s s' Hreach Hs)) as Hinv'.
  pose proof (step_map e s s' Hinv Hs) as Hmap.
  destruct Hinv' as
    ((last & map_id & m & h & Hw & Hr & _ & _ & Hc & _ & Hl & Hh)
     & [_ _ Hsub _ _ _] & _).
  split_and!.
  - by rewrite Hw.
  - exists map_id, m. rewrite Hw. split_and!; try done.
    destruct (inputFromForm s') as [[r v] |] eqn:Hi; [| done].
    destruct (Hsub r v eq_refl) as [Hacc _].
    apply accepts_true in Hacc as (_ & [la Hla] & [lo Hlo] & _).
    rewrite Hc. simpl. by rewrite Hla, Hlo.
  - intros Hch. unfold map_deps_changed in Hmap.
    destruct Hch as [Hne | Hne].
    + rewrite bool_decide_eq_false_2 in Hmap by done. exact Hmap.
    + rewrite Hne, orb_true_r in Hmap. exact Hmap.
  - intros Eq Ei. unfold map_deps_changed in Hmap.
    rewrite bool_decide_eq_true_2, Ei in Hmap by done. exact Hmap.
Qed.

(** C8 on the submitted form: the selector goes from hospitals to schools. *)
Lemma C8_witness :
  reachable submitted
  /\ exists s' m',
       step (SelectAmenity 2) submitted = Ok s'
       /\ L.maps (leaflet s') = [(5, m')]
       /\ L.center m' = (Num "28.7", Num "77.1")
       /\ L.history (leaflet s')
          = [L.Created 1; L.Removed 1; L.Created 3; L.Removed 3; L.Created 5]
       /\ never_two (L.history (leaflet s')).
Proof.
  split; [apply reachable_submitted |].
  eexists _, _. split; [vm_compute; reflexivity |].
  split; [reflexivity |]. split; [reflexivity |]. split; [reflexivity |].
  eapply (C8_one_map_recreated_on_change (SelectAmenity 2) submitted);
    [apply reachable_submitted | vm_compute; reflexivity].
Defined.

(** ** C9: no result list *)

(** C9: a call of [fetchQueryDetail] made before any submission sends
    nothing and hands [undefined] to its caller; a call whose response body
    parses but has no [elements] member (or is [null]) returns [undefined]
    and logs nothing; and the marker renderer, given [undefined], returns
    without an exception and leaves no marker on the map. *)
Theorem C9_undefined_result_draws_nothing s :
  reachable s ->
  (forall q, inputFromForm s = None ->
     requests (fetchQueryDetail q s) = requests s
     /\ in_flight (fetchQueryDetail q s) = in_flight s
     /\ microtasks (fetchQueryDetail q s) = microtasks s ++ [(q, undefined)])
  /\ (forall q body fresh,
        body = json_null \/ body = json_object None ->
        fetchQueryDetail_settled q (json_resolves body) fresh = (undefined, []))
  /\ (exists s' m',
        marker_effect (set_queryResult undefined s) = Ok s'
        /\ current_map s' = Some m' /\ L.markers m' = [])
  /\ (forall index req body,
        in_flight s !! index = Some req ->
        body = json_null \/ body = json_object None ->
        exists s' m',
          step (Settle index (json_resolves body)) s = Ok s'
          /\ queryResult s' = undefined
          /\ returned s' = returned s ++ [(amenity req, undefined)]
          /\ console s' = console s
          /\ current_map s' = Some m' /\ L.markers m' = []).
Proof.
  intros Hreach. pose proof (reachable_inv s Hreach) as Hinv. split_and!.
  - intros q Hi. destruct (fetchQueryDetail_network q s) as (Hrq & Hfl & Hmt).
    rewrite Hi in *. by rewrite !app_nil_r in *.
  - by intros q body fresh [-> | ->].
  - destruct (marker_effect_inv s undefined Hinv) as (s' & m' & Hs' & Hm & Hmk).
    by exists s', m'.
  - intros index req body Hreq Hbody.
    destruct (settle_ok s index (json_resolves body) req Hinv Hreq) as
      (s' & m' & Hs' & _ & _ & Hd & _ & _ & Hc & Hrt & _ & _ & _ & _ & Hm & Hmk).
    assert (fetchQueryDetail_settled (amenity req) (json_resolves body) (next_ref s)
            = (undefined, [])) as Hset by (by destruct Hbody as [-> | ->]).
    rewrite Hset in Hd, Hc, Hrt, Hmk. simpl in Hd, Hc, Hrt, Hmk.
    rewrite app_nil_r in Hc. exists s', m'. by split_and!.
Qed.

(** C9 on the mounted component, and on the submitted form whose response
    has no [elements]. *)
Lemma C9_witness :
  reachable mounted /\ reachable submitted
  /\ requests (fetchQueryDetail "" mounted) = []
  /\ microtasks (fetchQueryDetail "" mounted) = [("", undefined)]
  /\ exists s' m',
       step (Settle 0 (json_resolves (json_object None))) submitted = Ok s'
       /\ queryResult s' = undefined
       /\ current_map s' = Some m' /\ L.markers m' = [].
Proof.
  split; [apply reachable_mounted |]. split; [apply reachable_submitted |].
  destruct (C9_undefined_result_draws_nothing mounted reachable_mounted)
    as (Hcall & _).
  destruct (Hcall "" eq_refl) as (Hrq & _ & Hmt).
  destruct (C9_undefined_result_draws_nothing submitted reachable_submitted)
    as (_ & _ & _ & Hsettle).
  destruct (Hsettle 0 {| url := overpass_url hospital_values "hospital";
                         amenity := "hospital" |}
              (json_object None) eq_refl (or_intror eq_refl))
    as (s' & m' & Hs' & Hd & _ & _ & Hm & Hmk).
  split; [exact Hrq |]. split; [exact Hmt |].
  exists s', m'. by split_and!.
Defined.

(** ** C10: an element without a name *)

(** C10: an element of a returned list whose [tags] are absent, or whose
    [tags] have no [name], still gets its marker, at its coordinates, and
    the popup text of that marker reads "undefined" where the name goes;
    the render cycle returns without an exception. *)
Theorem C10_missing_name_reads_undefined s index req l k obj :
  reachable s ->
  in_flight s !! index = Some req ->
  l !! k = Some obj ->
  tags obj = None \/ (exists t, tags obj = Some t /\ t !! "name" = None) ->
  exists s' m' mk,
    step (Settle index (json_resolves (json_object (Some l)))) s = Ok s'
    /\ current_map s' = Some m'
    /\ length (L.markers m') = length l
    /\ L.markers m' !! k = Some mk
    /\ L.latlng mk = (lat obj, lon obj)
    /\ L.popup mk
       = Some ("<div><b>Name: undefined</b> <br/> <b>latitude: "
               +:+ toString (lat obj) +:+ "</b> <br/> <b>longitude: "
               +:+ toString (lon obj) +:+ "</b></div>").
Proof.
  intros Hreach Hreq Hk Htags.
  destruct (settle_ok s index (json_resolves (json_object (Some l))) req
              (reachable_inv s Hreach) Hreq) as
    (s' & m' & Hs' & _ & _ & _ & _ & _ & _ & _ & _ & _ & _ & _ & Hm & Hmk).
  simpl in Hmk. exists s', m', (marker_of (queryBy s) obj).
  assert (tags_name obj = None) as Hname.
  { unfold tags_name. destruct Htags as [-> | (t & -> & Ht)]; [done | exact Ht]. }
  rewrite Hmk. unfold rendering. simpl elements_of.
  rewrite length_fmap, list_lookup_fmap, Hk.
  split_and!; try done.
  simpl. unfold popupContent. by rewrite Hname.
Qed.

(** C10 on the submitted form, whose request returns an element without
    tags. *)
Lemma C10_witness :
  exists s' m' mk,
    step (Settle 0 (json_resolves (json_object (Some [clinic; unnamed]))))
      submitted = Ok s'
    /\ current_map s' = Some m'
    /\ length (L.markers m') = 2
    /\ L.markers m' !! 1 = Some mk
    /\ L.latlng mk = (Num "28.4", Num "77.4")
    /\ L.popup mk
       = Some "<div><b>Name: undefined</b> <br/> <b>latitude: 28.4</b> <br/> <b>longitude: 77.4</b></div>".
Proof.
  destruct (C10_missing_name_reads_undefined submitted 0
              {| url := overpass_url hospital_values "hospital";
                 amenity := "hospital" |}
              [clinic; unnamed] 1 unnamed
              reachable_submitted eq_refl eq_refl (or_introl eq_refl))
    as (s' & m' & mk & Hs' & Hm & Hlen & Hmk & Hll & Hp).
  exists s', m', mk. by split_and!.
Defined.

(** ** Further properties: what an event can do *)

Lemma reachable_ind (P : App -> Prop) :
  P mounted ->
  (forall e s s', reachable s -> P s -> step e s = Ok s' -> P s') ->
  forall s, reachable s -> P s.
Proof.
  intros Hm Hstep s [es Hes]. revert s Hes.
  induction es as [| e es IH] using rev_ind; intros s Hes.
  - rewrite (mount_mounted : run [] = Ok mounted) in Hes. by injection Hes as <-.
  - rewrite run_snoc in Hes. destruct (run_inv es) as (s0 & Hs0 & Hinv).
    rewrite Hs0, bind_Ok in Hes.
    apply (Hstep e s0 s); [by exists es | by apply IH | done].
Qed.

Lemma form_only_handleChange v s : form_only s (handleChange v s).
Proof. by repeat split. Qed.

(** Every event either only touches the form, or sets hooks and goes
    through a render cycle, or settles a request in flight. *)
Lemma step_cases e s s' :
  Inv s -> step e s = Ok s' ->
  form_only s s' \/ rerendered s s'
  \/ exists index req o,
       e = Settle index o /\ in_flight s !! index = Some req
       /\ settled index req o s s'.
Proof.
  intros Hinv Hs.
  destruct e as [text | x | x | index | | index | index o]; simpl in Hs.
  - injection Hs as <-. left. apply form_only_handleChange.
  - injection Hs as <-. left. apply form_only_handleChange.
  - injection Hs as <-. left. apply form_only_handleChange.
  - destruct (typeOptions !! index); injection Hs as <-; left;
      [apply form_only_handleChange | by repeat split].
  - destruct (accepts (values (formik s)).2) eqn:Hacc.
    + destruct (submit_accepted s Hinv Hacc) as
        (s'' & Hs'' & _ & Eq & Ei & _ & Ec & Hrq & Hfl & Hrt & _ & Hmap & _).
      rewrite Hs in Hs''. injection Hs'' as <-. right. left.
      unfold rerendered, sent, queued, map_deps_changed in *.
      simpl in Hrq, Hfl, Hrt, Hmap. rewrite Eq, Ei. by split_and!.
    + rewrite (submit_rejected s Hacc) in Hs. injection Hs as <-.
      left. by repeat split.
  - destruct (typeOptions !! index) as [o |] eqn:Ho.
    + destruct (select_ok s (value o) Hinv) as
        (s'' & Hs'' & _ & Eq & Ei & _ & Ec & Hrq & Hfl & Hrt & _ & Hmap & _);
        [by eapply option_value_elem |].
      rewrite Hs in Hs''. injection Hs'' as <-. right. left.
      unfold rerendered, sent, queued, map_deps_changed in *.
      simpl in Hrq, Hfl, Hrt, Hmap. rewrite Eq, Ei. by split_and!.
    + injection Hs as <-. left. by repeat split.
  - destruct (in_flight s !! index) as [req |] eqn:Hreq.
    + destruct (settle_ok s index o req Hinv Hreq) as
        (s'' & m' & Hs'' & _ & Eq & Ed & Ei & _ & Ec & Hrt & Hrq & Hfl & Hm & Hh & _).
      rewrite Hs in Hs''. injection Hs'' as <-. right. right.
      exists index, req, o. split; [done |]. split; [done |]. by repeat split.
    + unfold settle in Hs. rewrite Hreq in Hs. injection Hs as <-.
      left. by repeat split.
Qed.

(** ** X2: the selected type and its icon *)

(** X2: in every state the component reaches, the selected type is the
    empty string it starts with or the value of one of the four options;
    [amenityIcons] holds no icon for it, and the icon of the markers has no
    URL, exactly while it is the empty string; once a submission is stored
    it is one of the four values and has its icon; each of the four values
    has its own icon; and the values of the options are pairwise distinct,
    as are their ids, which serve as keys. *)
Theorem X2_selected_type_has_icon s :
  reachable s ->
  queryBy s ∈ [""; "restaurant"; "hospital"; "school"; "place_of_worship"]
  /\ (amenityIcons !! queryBy s = None <-> queryBy s = "")
  /\ (L.iconUrl (selectedIcon (queryBy s)) = None <-> queryBy s = "")
  /\ (inputFromForm s ≠ None ->
      queryBy s ∈ ["restaurant"; "hospital"; "school"; "place_of_worship"]
      /\ exists u, amenityIcons !! queryBy s = Some u
                   /\ u ∈ [restaurantIcon; hospitalIcon; schoolIcon; templeIcon])
  /\ amenityIcons !! "restaurant" = Some restaurantIcon
  /\ amenityIcons !! "hospital" = Some hospitalIcon
  /\ amenityIcons !! "school" = Some schoolIcon
  /\ amenityIcons !! "place_of_worship" = Some templeIcon
  /\ NoDup (value <$> typeOptions)
  /\ NoDup (id <$> typeOptions).
Proof.
  intros Hreach.
  pose proof (reachable_inv s Hreach) as (_ & [_ _ Hsub _ Hq _] & _).
  assert (amenityIcons !! queryBy s = None <-> queryBy s = "") as Hiff.
  { split; [| by intros ->].
    intros Hnone. apply elem_of_cons in Hq as [Hq | Hq]; [done |].
    destruct (amenityIcons_option _ Hq) as (u & Hu & _). congruence. }
  split_and!; try done.
  - intros Hi. destruct (inputFromForm s) as [[r v] |] eqn:Hin; [| done].
    destruct (Hsub r v eq_refl) as [_ Hopt]. split; [exact Hopt |].
    by apply amenityIcons_option.
  - apply (bool_decide_unpack (NoDup (value <$> typeOptions))). by vm_compute.
  - apply (bool_decide_unpack (NoDup (id <$> typeOptions))). by vm_compute.
Qed.

(** X2 on the submitted form: hospitals are selected, with their icon. *)
Lemma X2_witness :
  reachable submitted
  /\ queryBy submitted = "hospital"
  /\ exists u, amenityIcons !! queryBy submitted = Some u
               /\ u ∈ [restaurantIcon; hospitalIcon; schoolIcon; templeIcon].
Proof.
  split; [apply reachable_submitted |]. split; [reflexivity |].
  destruct (X2_selected_type_has_icon submitted reachable_submitted)
    as (_ & _ & _ & Hicon & _).
  by destruct Hicon as [_ Hu].
Defined.

(** ** X3: a submission the schema rejects *)

(** X3: when the schema rejects the values of the form, whichever field is
    missing, the submission only marks the form: [onSubmit] is not called,
    so type, stored values, result list, map, requests, console are as
    before; the form keeps its values and holds, for each field, its message
    exactly when that field is empty, all of them at once. *)
Theorem X3_rejected_submission_only_marks_form s :
  accepts (values (formik s)).2 = false ->
  let v := (values (formik s)).2 in
  exists s',
    step Submit s = Ok s'
    /\ form_only s s'
    /\ values (formik s') = values (formik s)
    /\ touched (formik s') = true
    /\ errors (formik s') ≠ no_errors
    /\ (name_error (errors (formik s')) = Some "Name is required" <-> name v = "")
    /\ (name_error (errors (formik s')) = None <-> name v ≠ "")
    /\ (latitude_error (errors (formik s')) = Some "Latitude is required"
        <-> latitude v = EmptyInput)
    /\ (latitude_error (errors (formik s')) = None <-> latitude v ≠ EmptyInput)
    /\ (longitude_error (errors (formik s')) = Some "Longitude is required"
        <-> longitude v = EmptyInput)
    /\ (longitude_error (errors (formik s')) = None <-> longitude v ≠ EmptyInput)
    /\ (type_error (errors (formik s')) = Some "Type is required" <-> type v = "")
    /\ (type_error (errors (formik s')) = None <-> type v ≠ "").
Proof.
  intros Hacc v. simpl. rewrite (submit_rejected s Hacc).
  eexists. split; [reflexivity |]. simpl. fold v.
  split; [by repeat split |]. split; [done |]. split; [done |].
  split.
  { intros Herr. unfold accepts in Hacc. fold v in Hacc.
    by rewrite Herr, bool_decide_eq_true_2 in Hacc. }
  unfold Yup.string_required, Yup.number_required.
  destruct (latitude v), (longitude v);
    repeat case_decide; split_and!; split; intros; congruence.
Qed.

(** X3 on the form that holds a name only. *)
Lemma X3_witness :
  exists s',
    step Submit named_only = Ok s'
    /\ requests s' = [] /\ inputFromForm s' = None
    /\ errors (formik s')
       = {| name_error := None;
            latitude_error := Some "Latitude is required";
            longitude_error := Some "Longitude is required";
            type_error := Some "Type is required" |}.
Proof.
  destruct (X3_rejected_submission_only_marks_form named_only eq_refl)
    as (s' & Hs' & (_ & _ & Hi & _ & _ & _ & Hrq & _) & _).
  exists s'. split; [exact Hs' |]. split; [exact Hrq |]. split; [exact Hi |].
  vm_compute in Hs'. by injection Hs' as <-.
Defined.

(** ** X4: submitting again *)

(** X4: submitting the form again, unchanged since the last submission and
    with its type still the selected one, does nothing but mark the form:
    both state updates of [onSubmit] receive the value they already hold, no
    effect runs, the map and its markers stay, and no request is sent. *)
Theorem X4_unchanged_resubmission_is_idle s :
  reachable s ->
  inputFromForm s = Some (values (formik s)) ->
  queryBy s = type (values (formik s)).2 ->
  exists s',
    step Submit s = Ok s'
    /\ form_only s s'
    /\ values (formik s') = values (formik s).
Proof.
  intros Hreach Hi Hq.
  pose proof (reachable_inv s Hreach) as (_ & [_ _ Hsub _ _ _] & Hmt).
  destruct (values (formik s)) as [r v] eqn:Hv.
  destruct (Hsub r v Hi) as [Hacc _].
  simpl. unfold handleSubmit. cbv zeta. rewrite Hv. simpl. rewrite Hacc.
  unfold onSubmit, commit, map_deps_changed, marker_deps_changed. simpl.
  simpl in Hq. rewrite Hi, <- Hq.
  rewrite !bool_decide_eq_true_2, Object_is_refl by done. simpl.
  rewrite bool_decide_eq_true_2 by done. simpl.
  unfold run_microtasks. simpl. rewrite Hmt. simpl.
  eexists. split; [reflexivity |]. simpl. by repeat split.
Qed.

(** X4 on the form just submitted. *)
Lemma X4_witness :
  reachable submitted
  /\ exists s',
       step Submit submitted = Ok s'
       /\ requests s' = requests submitted
       /\ leaflet s' = leaflet submitted.
Proof.
  split; [apply reachable_submitted |].
  destruct (X4_unchanged_resubmission_is_idle submitted reachable_submitted
              eq_refl eq_refl)
    as (s' & Hs' & (_ & _ & _ & _ & Hl & _ & Hrq & _) & _).
  by exists s'.
Defined.

Lemma submit_same_type_blank s :
  Inv s ->
  accepts (values (formik s)).2 = true ->
  same_object (inputFromForm s) (Some (values (formik s))) = false ->
  queryBy s = type (values (formik s)).2 ->
  exists s' last,
    handleSubmit s = Ok s'
    /\ current_map s' = Some (fresh_map (Some (values (formik s))) last).
Proof.
  intros ((last & map_id & m & h & Hw & Hr & _ & Hwf & _) & _ & Hmt) Hacc Hnew Hq.
  unfold handleSubmit. cbv zeta. rewrite Hacc. unfold onSubmit.
  match goal with
  | |- context [commit ?a ?b] =>
      rewrite (commit_one a b last map_id m h Hw Hr Hwf);
      assert (map_deps_changed a b = true) as ->
        by (unfold map_deps_changed; simpl; rewrite Hnew; apply orb_true_r);
      assert (marker_deps_changed a b = false) as ->
        by (unfold marker_deps_changed; simpl;
            by rewrite Object_is_refl, bool_decide_eq_true_2)
  end.
  cbv zeta. rewrite bind_Ok.
  match goal with
  | |- context [run_microtasks (fetchQueryDetail ?q ?x)] =>
      destruct (fetchQueryDetail_frame q x) as (_ & _ & _ & Hm' & Hl' & _);
      destruct (fetchQueryDetail_network q x) as (_ & _ & Hmt');
      assert (microtasks (fetchQueryDetail q x) = []) as Hnil
        by (rewrite Hmt'; simpl; by rewrite Hmt);
      rewrite (run_microtasks_nil (fetchQueryDetail q x) Hnil)
  end.
  eexists _, last. split; [reflexivity |].
  eapply current_map_one; simpl; [exact Hl' | exact Hm'].
Qed.

(** ** X5: a new submission *)

(** X5: when a submission that passes the schema with a new values object,
    whatever its name, returns, it has sent exactly one request, for its
    latitude, longitude and type; it has removed the map and created one
    centred on its coordinates; it has kept the stored result list; and it
    has left the new map without any marker when its type is the selected
    one, or with the markers of the stored list, icon of the new type, when
    it is not: the markers of the earlier place are gone, or are shown
    around the new place, until the request settles. *)
Theorem X5_new_submission s s' :
  reachable s ->
  accepts (values (formik s)).2 = true ->
  same_object (inputFromForm s) (Some (values (formik s))) = false ->
  step Submit s = Ok s' ->
  let v := (values (formik s)).2 in
  exists la lo old new m',
    latitude v = NumberValue la /\ longitude v = NumberValue lo
    /\ queryBy s' = type v /\ inputFromForm s' = Some (values (formik s))
    /\ requests s'
       = requests s
         ++ ["https://overpass-api.de/api/interpreter?data=[out:json];node(around:5000,"
             +:+ toString la +:+ "," +:+ toString lo
             +:+ ")[amenity=" +:+ type v +:+ "];out;"]
    /\ returned s' = returned s /\ queryResult s' = queryResult s
    /\ mapRef s = Some old /\ mapRef s' = Some new /\ old ≠ new
    /\ L.history (leaflet s')
       = L.history (leaflet s) ++ [L.Removed old; L.Created new]
    /\ current_map s' = Some m' /\ L.center m' = (la, lo)
    /\ L.markers m'
       = if bool_decide (queryBy s = type v) then []
         else rendering (type v) (queryResult s).
Proof.
  intros Hreach Hacc Hnew Hstep v. pose proof (reachable_inv s Hreach) as Hinv.
  destruct (submit_accepted s Hinv Hacc) as
    (s0 & Hs' & Hinv' & Eq & Ei & _ & _ & Hrq & _ & Hrt & Ed & Hmap & Hmk).
  assert (s0 = s') as -> by (simpl in Hstep; congruence).
  match type of Hrq with
  | _ = _ ++ sent ?a ?b =>
      assert (map_deps_changed a b = true) as Hch
        by (unfold map_deps_changed; simpl; rewrite Hnew; apply orb_true_r)
  end.
  unfold sent, queued in *. rewrite Hch in *. simpl in Hrq, Hrt, Hmap.
  destruct Hmap as (old & new & Hold & Hnw & Hne & Hh).
  rewrite app_nil_r in Hrt.
  pose proof Hacc as (_ & [la Hla] & [lo Hlo] & _)%accepts_true.
  destruct (Inv_current_map s' Hinv') as (m' & Hm' & Hc & _).
  exists la, lo, old, new, m'. fold v in Hla, Hlo, Eq.
  destruct (values (formik s)) as [r v0] eqn:Hv. simpl in v. subst v.
  split_and!; try done.
  - rewrite Hrq. unfold overpass_url. by rewrite Hla, Hlo.
  - rewrite Hc, Ei. simpl. by rewrite Hla, Hlo.
  - case_bool_decide as Hsame.
    + destruct (submit_same_type_blank s Hinv) as (s'' & last & Hs'' & Hblank);
        [by rewrite Hv | by rewrite Hv | by rewrite Hv |].
      rewrite Hs' in Hs''. injection Hs'' as <-.
      rewrite Hm' in Hblank. by injection Hblank as ->.
    + destruct (Hmk Hsame) as (m'' & Hm'' & Hmks).
      rewrite Hm' in Hm''. injection Hm'' as <-. by rewrite Hmks, Eq, Ed.
Qed.

(** X5 on the form whose latitude was edited after hospitals were drawn. *)
Lemma X5_witness :
  reachable edited
  /\ step Submit edited = Ok resubmitted
  /\ requests resubmitted
     = requests edited
       ++ ["https://overpass-api.de/api/interpreter?data=[out:json];node(around:5000,30,77.1)[amenity=hospital];out;"]
  /\ elements_of (queryResult resubmitted) = [clinic; unnamed]
  /\ exists m',
       current_map resubmitted = Some m'
       /\ L.center m' = (Num "30", Num "77.1")
       /\ L.markers m' = [].
Proof.
  assert (reachable edited) as Hreach.
  { exists (fill_form
            ++ [Submit;
                Settle 0 (json_resolves (json_object (Some [clinic; unnamed])));
                ChangeLatitude (NumberValue (Num "30"))]).
    reflexivity. }
  split; [exact Hreach |]. split; [reflexivity |].
  destruct (X5_new_submission edited resubmitted Hreach eq_refl eq_refl eq_refl)
    as (la & lo & old & new & m' & Hla & Hlo & _ & _ & Hrq & _ & Hd
        & _ & _ & _ & _ & Hm & Hc & Hmk).
  injection Hla as <-. injection Hlo as <-.
  split; [exact Hrq |]. split; [by rewrite Hd |].
  exists m'. by split_and!.
Defined.

(** ** X6: drawing twice *)

Lemma stamped_markers_not_base last ms :
  filter (fun p : nat * L.Layer => L.instanceof_Marker p.2 = false)
    (L.stamp_all last (L.MarkerLayer <$> ms)) = [].
Proof.
  revert last. induction ms as [| mk ms IH]; intros last; [done |].
  simpl. rewrite filter_cons_False by naive_solver. apply IH.
Qed.

(** The second effect leaves the layers that are not markers alone. *)
Lemma base_layers_redrawn last ms m :
  base_layers (redrawn last ms m) = base_layers m.
Proof.
  unfold base_layers, redrawn. simpl.
  rewrite filter_app, stamped_markers_not_base, app_nil_r, list_filter_filter.
  apply list_filter_iff. intros p. tauto.
Qed.

(** X6: the second effect can run any number of times without piling up
    markers: run twice in a row it leaves the same markers as run once, one
    per element of the stored list, because each run starts by removing the
    markers of the run before. *)
Theorem X6_marker_effect_is_idempotent s :
  reachable s ->
  exists s1 s2 m1 m2,
    marker_effect s = Ok s1
    /\ marker_effect s1 = Ok s2
    /\ current_map s1 = Some m1 /\ current_map s2 = Some m2
    /\ L.markers m1 = rendering (queryBy s) (queryResult s)
    /\ L.markers m2 = L.markers m1
    /\ length (L.markers m2) = length (elements_of (queryResult s))
    /\ base_layers m2 = base_layers m1.
Proof.
  intros Hreach.
  pose proof (reachable_inv s Hreach) as
    ((last & map_id & m & h & Hw & Hr & _ & Hwf & _) & _).
  rewrite (marker_effect_one s last map_id m h Hw Hr Hwf).
  set (ms := rendering (queryBy s) (queryResult s)).
  set (n := length (elements_of (queryResult s))).
  assert (length ms = n) as Hlen by apply length_fmap.
  pose proof (wf_layers_redrawn last ms m Hwf) as Hwf1. rewrite Hlen in Hwf1.
  set (s1 := set_map (Some map_id) (one (last + n) map_id (redrawn last ms m) h) s).
  pose proof (marker_effect_one s1 (last + n) map_id (redrawn last ms m) h
                eq_refl eq_refl Hwf1) as Hs2.
  exists s1. eexists. exists (redrawn last ms m).
  exists (redrawn (last + n) ms (redrawn last ms m)).
  split; [reflexivity |]. split; [exact Hs2 |].
  split; [eapply current_map_one; reflexivity |].
  split; [eapply current_map_one; reflexivity |].
  rewrite !markers_redrawn. split_and!; try done.
  by rewrite !base_layers_redrawn.
Qed.

(** X6 on the component with two hospitals drawn. *)
Lemma X6_witness :
  exists s1 s2 m2,
    marker_effect drawn = Ok s1
    /\ marker_effect s1 = Ok s2
    /\ current_map s2 = Some m2
    /\ length (L.markers m2) = 2.
Proof.
  assert (reachable drawn) as Hreach.
  { exists (fill_form
            ++ [Submit;
                Settle 0 (json_resolves (json_object (Some [clinic; unnamed])))]).
    reflexivity. }
  destruct (X6_marker_effect_is_idempotent drawn Hreach)
    as (s1 & s2 & m1 & m2 & Hs1 & Hs2 & _ & Hm2 & _ & _ & Hlen & _).
  by exists s1, s2, m2.
Defined.

(** ** X7: the tile layer stays *)

Lemma based_ext s s' :
  leaflet s' = leaflet s -> mapRef s' = mapRef s -> based s -> based s'.
Proof. unfold based. by intros -> ->. Qed.

Lemma as_created_fresh_map i last : as_created (fresh_map i last).
Proof. split_and!; [done | done |]. by exists (S (S last)). Qed.

Lemma as_created_redrawn last ms m : as_created m -> as_created (redrawn last ms m).
Proof.
  intros (Hc & Hz & tid & Hb). split_and!; [done | done |].
  exists tid. by rewrite base_layers_redrawn.
Qed.

Lemma commit_based prev s : based s -> exists s', commit prev s = Ok s' /\ based s'.
Proof.
  intros (last & map_id & m & h & Hw & Hr & Hwf & Hm).
  rewrite (commit_one prev s last map_id m h Hw Hr Hwf).
  eexists. split; [reflexivity |]. cbv zeta.
  assert (forall q, length (rendering q (queryResult s))
                    = length (elements_of (queryResult s))) as Hlen
    by (intros q; apply length_fmap).
  destruct (map_deps_changed prev s), (marker_deps_changed prev s).
  - eexists _, _, _, _. split_and!; [reflexivity | reflexivity | |].
    + rewrite <- (Hlen (queryBy s)). apply wf_layers_redrawn, wf_layers_fresh_map.
    + apply as_created_redrawn, as_created_fresh_map.
  - eapply based_ext; [apply fetchQueryDetail_frame | apply fetchQueryDetail_frame |].
    eexists _, _, _, _. split_and!; [reflexivity | reflexivity | |].
    + apply wf_layers_fresh_map.
    + apply as_created_fresh_map.
  - eexists _, _, _, _. split_and!; [reflexivity | reflexivity | |].
    + rewrite <- (Hlen (queryBy s)). by apply wf_layers_redrawn.
    + by apply as_created_redrawn.
  - by eexists _, _, _, _.
Qed.

Lemma resume_based q d logged s :
  based s -> exists s', resume q d logged s = Ok s' /\ based s'.
Proof.
  intros Hb. unfold resume. apply commit_based.
  by apply (based_ext s).
Qed.

Lemma microtasks_based l : forall s,
  based s ->
  exists s', foldl (fun r t => r ≫= resume t.1 t.2 []) (Ok s) l = Ok s'
             /\ based s'.
Proof.
  induction l as [| t l IH]; intros s Hb; [by exists s |].
  simpl foldl. destruct (resume_based t.1 t.2 [] s Hb) as (s1 & Hs1 & Hb1).
  rewrite Hs1. by apply IH.
Qed.

Lemma run_microtasks_based s :
  based s -> exists s', run_microtasks s = Ok s' /\ based s'.
Proof.
  intros Hb. unfold run_microtasks. apply microtasks_based.
  by apply (based_ext s).
Qed.

Lemma render_based prev s :
  based s -> exists s', commit prev s ≫= run_microtasks = Ok s' /\ based s'.
Proof.
  intros Hb. destruct (commit_based prev s Hb) as (s1 & Hs1 & Hb1).
  rewrite Hs1, bind_Ok. by apply run_microtasks_based.
Qed.

Lemma step_based e s : based s -> exists s', step e s = Ok s' /\ based s'.
Proof.
  intros Hb.
  destruct e as [text | x | x | index | | index | index o]; simpl.
  - eexists. split; [done |]. by apply (based_ext s).
  - eexists. split; [done |]. by apply (based_ext s).
  - eexists. split; [done |]. by apply (based_ext s).
  - destruct (typeOptions !! index); [| by exists s].
    eexists. split; [done |]. by apply (based_ext s).
  - unfold handleSubmit. cbv zeta. destruct (accepts _).
    + unfold onSubmit. apply render_based. by apply (based_ext s).
    + eexists. split; [done |]. by apply (based_ext s).
  - destruct (typeOptions !! index); [| by exists s].
    unfold onChange. apply render_based. by apply (based_ext s).
  - unfold settle. destruct (in_flight s !! index) as [req |]; [| by exists s].
    destruct (fetchQueryDetail_settled (amenity req) o (next_ref s)) as [d logged].
    destruct (resume_based (amenity req) d logged
                (set_network (delete index (in_flight s)) (microtasks s)
                   (requests s) s)) as (s1 & Hs1 & Hb1);
      [by apply (based_ext s) |].
    rewrite Hs1, bind_Ok. by apply run_microtasks_based.
Qed.

Lemma based_mounted : based mounted.
Proof.
  exists 2, 1, (fresh_map None 0), [L.Created 1].
  split_and!; [done | done | apply (wf_layers_fresh_map None 0)
               | apply as_created_fresh_map].
Qed.

Lemma run_based es : exists s, run es = Ok s /\ based s.
Proof.
  induction es as [| e es (s & Hs & Hb)] using rev_ind.
  - exists mounted. split; [apply mount_mounted | apply based_mounted].
  - rewrite run_snoc, Hs, bind_Ok. by apply step_based.
Qed.

Lemma layers_split (ls : list (nat * L.Layer)) :
  length ls
  = length (filter (fun p => L.instanceof_Marker p.2 = false) ls)
    + length (omap (fun p : nat * L.Layer =>
                      match p.2 with
                      | L.MarkerLayer mk => Some mk
                      | L.TileLayer _ _ => None
                      end) ls).
Proof.
  induction ls as [| [k [u a | mk]] ls IH]; [done | |].
  - rewrite filter_cons_True by done. simpl. f_equal. exact IH.
  - rewrite filter_cons_False by done. simpl. rewrite Nat.add_succ_r.
    f_equal. exact IH.
Qed.

(** X7: the component's own code leaves the map as [createMap] set it up.
    After a run of its events (edits of the form, submissions, changes of
    the amenity selector, settlements of requests; the user does not zoom,
    drag or open a popup in between) the map [mapRef] refers to is in the
    element "map", at zoom 13, and holds the tile layer [createMap] gave it
    and, besides, markers only: the loop that removes the markers, which
    asks of each layer whether it is a marker, never removes the tiles, and
    no second tile layer is ever added. *)
Theorem X7_tile_layer_stays (es : list Event) (s : App) :
  run es = Ok s ->
  exists m tile_id,
    current_map s = Some m
    /\ L.container m = "map" /\ L.zoom m = 13%Z
    /\ base_layers m
       = [(tile_id,
           L.TileLayer "https://{s}.tile.openstreetmap.org/{z}/{x}/{y}.png"
             ("&copy; <a href=" +:+ dquote +:+ "http://osm.org/copyright"
              +:+ dquote +:+ ">OpenStreetMap</a> contributors"))]
    /\ length (L.layers m) = 1 + length (L.markers m).
Proof.
  intros Hrun.
  destruct (run_based es) as
    (s0 & Hs & last & map_id & m & h & Hw & Hr & _ & Hc & Hz & tid & Hb).
  assert (s0 = s) as -> by congruence.
  exists m, tid. split_and!; try done.
  - by eapply current_map_one.
  - rewrite (layers_split (L.layers m)). unfold base_layers in Hb.
    by rewrite Hb.
Qed.

(** X7 on the map on which two hospitals were drawn: three layers, the
    tiles and two markers. *)
Lemma X7_witness :
  run (fill_form
       ++ [Submit;
           Settle 0 (json_resolves (json_object (Some [clinic; unnamed])))])
  = Ok drawn
  /\ exists m,
       current_map drawn = Some m
       /\ L.zoom m = 13%Z
       /\ length (base_layers m) = 1
       /\ length (L.layers m) = 3.
Proof.
  split; [reflexivity |].
  destruct (X7_tile_layer_stays
              (fill_form
               ++ [Submit;
                   Settle 0 (json_resolves (json_object (Some [clinic; unnamed])))])
              drawn eq_refl)
    as (m & tid & Hm & _ & Hz & Hb & Hlen).
  exists m. split_and!; [done | done | by rewrite Hb |].
  rewrite Hlen. vm_compute in Hm. by injection Hm as <-.
Defined.

(** ** X8: the requests sent *)

Lemma overpass_url_request v q :
  accepts v = true -> q ∈ option_values ->
  overpass_request (overpass_url v q) q.
Proof.
  intros (_ & [la Hla] & [lo Hlo] & _)%accepts_true Hq. split; [done |].
  exists la, lo. unfold overpass_url. by rewrite Hla, Hlo.
Qed.

Lemma sent_requests s s' :
  Inv s' ->
  Forall (fun u => overpass_request u (queryBy s')) (sent s s').
Proof.
  intros (_ & [_ _ Hsub _ _ _] & _). unfold sent.
  destruct (map_deps_changed s s'); [| constructor].
  destruct (inputFromForm s') as [[r v] |] eqn:Hi; [| constructor].
  destruct (Hsub r v eq_refl) as [Hacc Hq].
  constructor; [by apply overpass_url_request | constructor].
Qed.

(** Every request sent, and every request in flight, is well formed. *)
Lemma requests_ok s :
  reachable s ->
  Forall (fun u => exists q, overpass_request u q) (requests s)
  /\ Forall (fun r => overpass_request (url r) (amenity r)) (in_flight s)
  /\ Forall (fun r => url r ∈ requests s) (in_flight s).
Proof.
  revert s. apply reachable_ind; [by repeat constructor |].
  intros e s s' Hreach (Hrq & Hfl & Hin) Hs.
  pose proof (reachable_inv s' (reachable_step e s s' Hreach Hs)) as Hinv'.
  destruct (step_cases e s s' (reachable_inv s Hreach) Hs) as
    [(_ & _ & _ & _ & _ & Efl & Erq & _)
    | [(_ & Erq & Efl & _)
      | (index & req & o & _ & _ & _ & _ & _ & _ & _ & Erq & Efl & _)]].
  - by rewrite Efl, Erq.
  - pose proof (sent_requests s s' Hinv') as Hsent.
    rewrite Erq, Efl. split_and!.
    + apply Forall_app. split; [done |].
      eapply Forall_impl; [exact Hsent |]. intros u Hu. by exists (queryBy s').
    + apply Forall_app. split; [done |]. by apply Forall_fmap.
    + apply Forall_app. split.
      * eapply Forall_impl; [exact Hin |]. intros r Hr. simpl in Hr.
        apply elem_of_app. by left.
      * apply Forall_fmap, Forall_forall. intros u Hu. simpl.
        apply elem_of_app. by right.
  - rewrite Erq, Efl. split_and!; [done | |]; by apply Forall_delete.
Qed.

(** The requests of a render cycle carry the stored coordinates. *)
Lemma sent_typed P s s' :
  Inv s' -> typed_values P s' ->
  Forall (fun u => around_request P u (queryBy s')) (sent s s').
Proof.
  intros (_ & [_ _ Hsub _ _ _] & _) (_ & _ & Hst). unfold sent.
  destruct (map_deps_changed s s'); [| constructor].
  destruct (inputFromForm s') as [[r v] |] eqn:Hi; [| constructor].
  destruct (Hsub r v eq_refl) as [Hacc Hq].
  destruct (Hst r v eq_refl) as [Hla Hlo].
  apply accepts_true in Hacc as (_ & [la Ela] & [lo Elo] & _).
  rewrite Ela in Hla. rewrite Elo in Hlo. simpl in Hla, Hlo.
  constructor; [| constructor]. split; [exact Hq |].
  exists (toString la), (toString lo). unfold overpass_url.
  by rewrite Ela, Elo.
Qed.

(** The coordinates held and stored are those that were typed. *)
Lemma step_typed_values P e s s' :
  Inv s -> typed_values P s -> types P e -> step e s = Ok s' ->
  typed_values P s'.
Proof.
  intros Hinv (Hla & Hlo & Hst) He Hs.
  destruct e as [text | x | x | index | | index | index o]; simpl in Hs, He.
  - injection Hs as <-. by split_and!.
  - injection Hs as <-. by split_and!.
  - injection Hs as <-. by split_and!.
  - destruct (typeOptions !! index); injection Hs as <-; by split_and!.
  - destruct (accepts (values (formik s)).2) eqn:Hacc.
    + destruct (submit_accepted s Hinv Hacc) as (s'' & Hs'' & _ & _ & Ei & Ef & _).
      rewrite Hs in Hs''. injection Hs'' as <-.
      unfold typed_values. rewrite Ef, Ei. simpl. split_and!; try done.
      intros r v [= Heq]. assert (v = (values (formik s)).2) as ->
        by (by rewrite Heq).
      done.
    + rewrite (submit_rejected s Hacc) in Hs. injection Hs as <-.
      by split_and!.
  - destruct (typeOptions !! index) as [o |] eqn:Ho.
    + destruct (select_ok s (value o) Hinv) as (s'' & Hs'' & _ & _ & Ei & Ef & _);
        [by eapply option_value_elem |].
      rewrite Hs in Hs''. injection Hs'' as <-.
      unfold typed_values. by rewrite Ef, Ei.
    + injection Hs as <-. by split_and!.
  - destruct (in_flight s !! index) as [req |] eqn:Hreq.
    + destruct (settle_ok s index o req Hinv Hreq) as
        (s'' & m' & Hs'' & _ & _ & _ & Ei & Ef & _).
      rewrite Hs in Hs''. injection Hs'' as <-.
      unfold typed_values. by rewrite Ef, Ei.
    + unfold settle in Hs. rewrite Hreq in Hs. injection Hs as <-.
      by split_and!.
Qed.

Lemma run_typed P es :
  Forall (types P) es ->
  forall s, run es = Ok s ->
  typed_values P s
  /\ Forall (fun u => exists q, around_request P u q) (requests s)
  /\ Forall (fun r => around_request P (url r) (amenity r)) (in_flight s).
Proof.
  induction es as [| e es IH] using rev_ind; intros Hes s Hrun.
  - rewrite (mount_mounted : run [] = Ok mounted) in Hrun.
    injection Hrun as <-. by repeat constructor.
  - apply Forall_app in Hes as [Hes He]. rewrite Forall_singleton in He.
    rewrite run_snoc in Hrun. destruct (run_inv es) as (s0 & Hs0 & Hinv).
    rewrite Hs0, bind_Ok in Hrun.
    destruct (IH Hes s0 Hs0) as (Hv & Hrq & Hfl).
    pose proof (step_typed_values P e s0 s Hinv Hv He Hrun) as Hv'.
    split; [exact Hv' |].
    assert (Inv s) as Hinv'.
    { destruct (step_inv e s0 Hinv) as (s1 & Hs1 & Hinv1). congruence. }
    destruct (step_cases e s0 s Hinv Hrun) as
      [(_ & _ & _ & _ & _ & Efl & Erq & _)
      | [(_ & Erq & Efl & _)
        | (index & req & o & _ & _ & _ & _ & _ & _ & _ & Erq & Efl & _)]].
    + by rewrite Efl, Erq.
    + pose proof (sent_typed P s0 s Hinv' Hv') as Hsent.
      rewrite Erq, Efl. split.
      * apply Forall_app. split; [done |].
        eapply Forall_impl; [exact Hsent |]. intros u Hu. by exists (queryBy s).
      * apply Forall_app. split; [done |]. by apply Forall_fmap.
    + rewrite Erq, Efl. split; [done |]. by apply Forall_delete.
Qed.

(** X8: the coordinates of every request are numbers that were typed into
    the form.  Whatever holds of the rendering of every number the events
    of a run put into a coordinate field (that it is not empty, that it is
    a decimal numeral) holds of both coordinates of every request the run
    has sent; every request asks for one of the four amenity types within
    5000 of its two coordinates, never for the empty type the component
    starts with, never for the empty text of a field left empty; and every
    request in flight is among those sent, with the type its call was
    given. *)
Theorem X8_requests_are_well_formed (P : string -> Prop) (es : list Event)
    (s : App) :
  Forall (types P) es ->
  run es = Ok s ->
  Forall (fun u => exists q, around_request P u q) (requests s)
  /\ Forall (fun r => around_request P (url r) (amenity r)) (in_flight s)
  /\ Forall (fun r => url r ∈ requests s) (in_flight s).
Proof.
  intros Hes Hrun. destruct (run_typed P es Hes s Hrun) as (_ & Hrq & Hfl).
  split_and!; [done | done |]. apply requests_ok. by exists es.
Qed.

(** X8 on the submitted form: the numbers typed were not empty, and the one
    request there is, for hospitals, has two coordinates that are not
    empty. *)
Lemma X8_witness :
  Forall (types (fun x => x ≠ "")) (fill_form ++ [Submit])
  /\ run (fill_form ++ [Submit]) = Ok submitted
  /\ requests submitted
     = ["https://overpass-api.de/api/interpreter?data=[out:json];node(around:5000,28.7,77.1)[amenity=hospital];out;"]
  /\ Forall (fun u => exists q, around_request (fun x => x ≠ "") u q)
       (requests submitted).
Proof.
  assert (Forall (types (fun x => x ≠ "")) (fill_form ++ [Submit])) as Hes
    by (by repeat constructor).
  split; [exact Hes |]. split; [reflexivity |]. split; [reflexivity |].
  by destruct (X8_requests_are_well_formed (fun x => x ≠ "")
                 (fill_form ++ [Submit]) submitted Hes eq_refl) as (Hrq & _).
Defined.

(** ** X9: the console *)


(** ** X10: maps and calls *)



(** ** X11: requests are neither cancelled nor checked for staleness *)

(** X11: no event cancels a request: across an event the requests in
    flight are kept, new ones coming after them, unless the event is the
    settlement of one of them, which takes out that one alone.  And the
    value a settled call returns is stored and drawn with the icon of the
    type selected at that moment, whether or not that is the type the
    request was made for. *)
Theorem X11_no_cancellation_no_staleness_check e s s' :
  reachable s ->
  step e s = Ok s' ->
  in_flight s `prefix_of` in_flight s'
  \/ exists index req o m',
       e = Settle index o
       /\ in_flight s !! index = Some req
       /\ in_flight s' = delete index (in_flight s)
       /\ queryResult s'
          = (fetchQueryDetail_settled (amenity req) o (next_ref s)).1
       /\ queryBy s' = queryBy s
       /\ current_map s' = Some m'
       /\ L.markers m' = rendering (queryBy s) (queryResult s').
Proof.
  intros Hreach Hs. pose proof (reachable_inv s Hreach) as Hinv.
  destruct (step_cases e s s' Hinv Hs) as
    [(_ & _ & _ & _ & _ & Efl & _)
    | [(_ & _ & Efl & _)
      | (index & req & o & -> & Hreq & _)]].
  - left. by rewrite Efl.
  - left. rewrite Efl. by apply prefix_app_r.
  - right.
    destruct (settle_ok s index o req Hinv Hreq) as
      (s'' & m' & Hs'' & _ & Eq & Ed & _ & _ & _ & _ & _ & Efl & _ & _ & Hm & Hmk).
    simpl in Hs. rewrite Hs in Hs''. injection Hs'' as <-.
    exists index, req, o, m'. split_and!; try done. by rewrite Ed.
Qed.

(** X11 on two requests in flight: the one for hospitals settles while
    schools are selected. *)
Lemma X11_witness :
  reachable two_in_flight
  /\ queryBy two_in_flight = "school"
  /\ (amenity <$> in_flight two_in_flight) = ["hospital"; "school"]
  /\ exists s' m',
       step (Settle 0 (json_resolves (json_object (Some [clinic]))))
         two_in_flight = Ok s'
       /\ (amenity <$> in_flight s') = ["school"]
       /\ elements_of (queryResult s') = [clinic]
       /\ current_map s' = Some m'
       /\ L.markers m' = [marker_of "school" clinic].
Proof.
  assert (reachable two_in_flight) as Hreach
    by (exists (fill_form ++ [Submit; SelectAmenity 2]); reflexivity).
  split; [exact Hreach |]. split; [reflexivity |]. split; [reflexivity |].
  assert (exists s', step (Settle 0 (json_resolves (json_object (Some [clinic]))))
                       two_in_flight = Ok s') as [s' Hs']
    by (eexists; vm_compute; reflexivity).
  destruct (X11_no_cancellation_no_staleness_check _ _ _ Hreach Hs')
    as [Hpre | (index & req & o & m' & [= <- <-] & Hreq & Hfl & Hd & _ & Hm & Hmk)].
  - exfalso. vm_compute in Hs'. injection Hs' as <-.
    destruct Hpre as [k Hk]. discriminate Hk.
  - exists s', m'. injection Hreq as <-. simpl in Hd. rewrite Hd in *.
    by split_and!; [| rewrite Hfl | | |].
Defined.

(** ** X12: edits wait for the next submission *)

Lemma run_from_snoc s es e : run_from s (es ++ [e]) = run_from s es ≫= step e.
Proof. unfold run_from. by rewrite foldl_snoc. Qed.

(** Edits of the form touch the form only. *)
Lemma edits_form_only s cs :
  reachable s ->
  Forall (fun e => is_edit e = true) cs ->
  exists s', run_from s cs = Ok s' /\ reachable s' /\ form_only s s'.
Proof.
  intros Hreach. induction cs as [| e cs IH] using rev_ind; intros Hcs.
  - exists s. split; [done |]. split; [done |]. by repeat split.
  - apply Forall_app in Hcs as [Hcs He]. rewrite Forall_singleton in He.
    destruct (IH Hcs) as (s1 & Hs1 & Hreach1 & Hf1).
    rewrite run_from_snoc, Hs1, bind_Ok.
    destruct (step_inv e s1 (reachable_inv s1 Hreach1)) as (s' & Hs' & _).
    exists s'. split; [done |]. split; [by eapply reachable_step |].
    assert (form_only s1 s') as Hf.
    { destruct e; simpl in He; try discriminate He; simpl in Hs';
        try (injection Hs' as <-; apply form_only_handleChange).
      destruct (typeOptions !! index); injection Hs' as <-;
        [apply form_only_handleChange | by repeat split]. }
    destruct Hf1 as (? & ? & ? & ? & ? & ? & ? & ? & ?).
    destruct Hf as (? & ? & ? & ? & ? & ? & ? & ? & ?).
    repeat split; congruence.
Qed.

(** X12: what is typed into the form after a submission takes no part in
    what the component fetches or shows until it is submitted: after any
    edits, a change of the amenity selector still sends its request for the
    coordinates submitted last, and centres the new map on them. *)
Theorem X12_edits_wait_for_submission s cs index o r v :
  reachable s ->
  inputFromForm s = Some (r, v) ->
  Forall (fun e => is_edit e = true) cs ->
  typeOptions !! index = Some o ->
  queryBy s ≠ value o ->
  exists s' m',
    run_from s (cs ++ [SelectAmenity index]) = Ok s'
    /\ inputFromForm s' = Some (r, v)
    /\ queryBy s' = value o
    /\ requests s' = requests s ++ [overpass_url v (value o)]
    /\ current_map s' = Some m'
    /\ latitude v = NumberValue (L.center m').1
    /\ longitude v = NumberValue (L.center m').2.
Proof.
  intros Hreach Hi Hcs Ho Hne.
  destruct (edits_form_only s cs Hreach Hcs) as
    (s1 & Hs1 & Hreach1 & (Eq & _ & Ei & _ & _ & _ & Erq & _)).
  rewrite run_from_snoc, Hs1, bind_Ok. simpl. rewrite Ho.
  pose proof (reachable_inv s1 Hreach1) as Hinv1.
  destruct (select_ok s1 (value o) Hinv1) as
    (s' & Hs' & Hinv' & Eq' & Ei' & _ & _ & Hrq & _);
    [by eapply option_value_elem |].
  assert (map_deps_changed s1 (set_hooks (value o) (inputFromForm s1) s1) = true)
    as Hch.
  { unfold map_deps_changed. simpl. rewrite Eq.
    by rewrite (bool_decide_eq_false_2 _ Hne). }
  unfold sent in Hrq. rewrite Hch in Hrq. simpl in Hrq.
  rewrite Ei, Hi, Erq in Hrq. rewrite Ei, Hi in Ei'.
  destruct (Inv_current_map s' Hinv') as (m' & Hm' & Hc & _).
  destruct Hinv' as (_ & [_ _ Hsub _ _ _] & _).
  destruct (Hsub r v Ei') as [(_ & [la Hla] & [lo Hlo] & _)%accepts_true _].
  exists s', m'. rewrite Hc, Ei'. simpl. rewrite Hla, Hlo. by split_and!.
Qed.

(** X12 on the component with hospitals drawn: the latitude is edited, then
    schools are selected. *)
Lemma X12_witness :
  exists s' m',
    run_from drawn [ChangeLatitude (NumberValue (Num "30")); SelectAmenity 2]
    = Ok s'
    /\ requests s'
       = requests drawn
         ++ ["https://overpass-api.de/api/interpreter?data=[out:json];node(around:5000,28.7,77.1)[amenity=school];out;"]
    /\ current_map s' = Some m'
    /\ L.center m' = (Num "28.7", Num "77.1").
Proof.
  assert (reachable drawn) as Hreach.
  { exists (fill_form
            ++ [Submit;
                Settle 0 (json_resolves (json_object (Some [clinic; unnamed])))]).
    reflexivity. }
  destruct (X12_edits_wait_for_submission drawn
              [ChangeLatitude (NumberValue (Num "30"))] 2
              {| id := 3; label := "School"; value := "school" |}
              6 hospital_values Hreach eq_refl)
    as (s' & m' & Hs' & _ & _ & Hrq & Hm & Hla & Hlo);
    [by repeat constructor | reflexivity | discriminate |].
  exists s', m'. split_and!; try done.
  destruct (L.center m') as [a b]. simpl in Hla, Hlo.
  injection Hla as <-. injection Hlo as <-. done.
Defined.
